(** * ampackage: source resolution, caching and configuration store

    A shallow embedding of [bin/config.js] and [bin/fetcher.js] (and of the
    part of the command-line front end that connects them), together with
    the properties of the design specification that concern them.

    The JavaScript runtime the code relies on (strings, [path], [fs-extra],
    [node-fetch]) is modelled in the modules [JsString], [NodePath] and
    [NodeFs]; the repository's own functions keep their names. *)

From Stdlib Require Import ZArith Lia Ascii String.
From stdpp Require Import base option strings list gmap.

Local Open Scope string_scope.
Local Open Scope Z_scope.
Local Open Scope list_scope.

(** ** Results of fallible computations

    A JavaScript [throw new Error(msg)] is [Throw msg]; the message is what
    [error.message] reads in a [catch] block. *)

Inductive Result (A : Type) : Type :=
| Ok (a : A)
| Throw (msg : string).
Arguments Ok {A} a.
Arguments Throw {A} msg.

Definition is_ok {A} (r : Result A) : bool :=
  match r with Ok _ => true | Throw _ => false end.

#[global] Instance Result_ret : MRet Result := λ A a, Ok a.

#[global] Instance Result_bind : MBind Result := λ A B k r,
  match r with
  | Ok a => k a
  | Throw msg => Throw msg
  end.

(** ** JavaScript string primitives used by the code *)

Module JsString.

(** [s.startsWith(p)] *)
Fixpoint startsWith (p s : string) : bool :=
  match p, s with
  | EmptyString, _ => true
  | String a p', String b s' => if Ascii.eqb a b then startsWith p' s' else false
  | String _ _, EmptyString => false
  end.

(** The suffix of [s] after its first [n] characters. *)
Fixpoint drop (n : nat) (s : string) : string :=
  match n, s with
  | O, _ => s
  | S n', String _ s' => drop n' s'
  | S _, EmptyString => EmptyString
  end.

(** [s.includes(p)] *)
Fixpoint includes (p s : string) : bool :=
  if startsWith p s then true
  else match s with
       | EmptyString => false
       | String _ s' => includes p s'
       end.

(** [s.replace(p, r)] for a string pattern [p]: only the first (leftmost)
    occurrence of [p] is replaced.  The replacements used by the code
    contain no [$], so no replacement pattern is expanded. *)
Fixpoint replace (p r s : string) : string :=
  if startsWith p s then r +:+ drop (String.length p) s
  else match s with
       | EmptyString => EmptyString
       | String c s' => String c (replace p r s')
       end.

(** [s.endsWith(p)] *)
Fixpoint endsWith (p s : string) : bool :=
  if String.eqb p s then true
  else match s with
       | EmptyString => false
       | String _ s' => endsWith p s'
       end.

(** [l.join(sep)] *)
Fixpoint join (sep : string) (l : list string) : string :=
  match l with
  | [] => ""
  | [x] => x
  | x :: rest => x +:+ sep +:+ join sep rest
  end.

(** Truthiness of a string value: only the empty string is falsy. *)
Definition truthy (s : string) : bool :=
  match s with EmptyString => false | String _ _ => true end.

End JsString.

(** ** POSIX [path]

    A path is kept in normal form: the list of its segments below the root.
    Every path the code touches is anchored at an absolute directory (the
    home directory or the package root), so all paths are absolute. *)

Abbreviation path := (list string).

Module NodePath.

(** The [/]-separated pieces of a string; [split "a//b" = ["a"; ""; "b"]]. *)
Fixpoint split (s : string) : list string :=
  match s with
  | EmptyString => [""]
  | String c s' =>
      if Ascii.eqb c "/"%char then "" :: split s'
      else match split s' with
           | seg :: rest => String c seg :: rest
           | [] => [String c ""]
           end
  end.

(** One step of [path.normalize]: empty and [.] pieces vanish, [..] drops
    the last segment (and stays at the root), any other piece descends. *)
Definition step (p : path) (seg : string) : path :=
  if decide (seg = "" ∨ seg = ".") then p
  else if decide (seg = "..") then removelast p
  else p ++ [seg].

(** [path.join(base, a1, ..., an)] for an absolute, normalized [base]. *)
Definition join (base : path) (args : list string) : path :=
  foldl step base (args ≫= split).

(** [path.isAbsolute(s)] *)
Definition isAbsolute (s : string) : bool := JsString.startsWith "/" s.

(** [path.dirname(p)] *)
Definition dirname (p : path) : path := removelast p.

(** Position of the last [.] of a file name, if any. *)
Fixpoint lastDot (s : string) : option nat :=
  match s with
  | EmptyString => None
  | String c s' =>
      match lastDot s' with
      | Some i => Some (S i)
      | None => if Ascii.eqb c "."%char then Some O else None
      end
  end.

(** [path.parse(file).name] for a single segment [file]: the part before
    the last dot, except that a name whose only dot is its first
    character (a dot file) and the name [..] have no extension. *)
Definition parseName (file : string) : string :=
  match lastDot file with
  | None => file
  | Some O => file
  | Some i => if decide (file = "..") then file else String.substring 0 i file
  end.

End NodePath.

(** ** The file system ([fs-extra])

    A tree: a regular file carries its text and its modification time, a
    directory its modification time and its entries by name. *)

Set Warnings "-register-all".

Inductive node : Type :=
| File (content : string) (mtime : Z)
| Dir (mtime : Z) (entries : gmap string node).

Module NodeFs.

Definition ENOENT : string := "ENOENT: no such file or directory".
Definition ENOTDIR : string := "ENOTDIR: not a directory".
Definition EISDIR : string := "EISDIR: illegal operation on a directory".
Definition EEXIST : string := "EEXIST: file already exists".

Fixpoint lookup (p : path) (n : node) : option node :=
  match p with
  | [] => Some n
  | seg :: rest =>
      match n with
      | Dir _ es => match es !! seg with
                    | Some c => lookup rest c
                    | None => None
                    end
      | File _ _ => None
      end
  end.

(** [fs.pathExists(p)] *)
Definition pathExists (p : path) (root : node) : bool :=
  bool_decide (is_Some (lookup p root)).

(** [fs.stat(p)], of which the code reads [mtime.getTime()] only. *)
Definition stat (p : path) (root : node) : Result Z :=
  match lookup p root with
  | Some (File _ m) => Ok m
  | Some (Dir m _) => Ok m
  | None => Throw ENOENT
  end.

(** [fs.readFile(p, 'utf8')] *)
Definition readFile (p : path) (root : node) : Result string :=
  match lookup p root with
  | Some (File c _) => Ok c
  | Some (Dir _ _) => Throw EISDIR
  | None => Throw ENOENT
  end.

(** [fs.readdir(p)]: the names of the entries of a directory. *)
Definition readdir (p : path) (root : node) : Result (list string) :=
  match lookup p root with
  | Some (Dir _ es) => Ok (map_to_list es).*1
  | Some (File _ _) => Throw ENOTDIR
  | None => Throw ENOENT
  end.

(** [fs.ensureDir(p)]: creates the missing directories on the way to [p];
    fails when a regular file is in the way or in the place of [p]. *)
Fixpoint ensureDir (now : Z) (p : path) (n : node) : Result node :=
  match n with
  | File _ _ => Throw (match p with [] => EEXIST | _ :: _ => ENOTDIR end)
  | Dir m es =>
      match p with
      | [] => Ok n
      | seg :: rest =>
          match es !! seg with
          | Some c =>
              c' ← ensureDir now rest c;
              Ok (Dir m (<[seg := c']> es))
          | None =>
              c' ← ensureDir now rest (Dir now ∅);
              Ok (Dir now (<[seg := c']> es))
          end
      end
  end.

(** [fs.writeFile(p, content, 'utf8')]: creates or overwrites a regular
    file in an existing directory. *)
Fixpoint writeFile (now : Z) (p : path) (content : string) (n : node)
  : Result node :=
  match p with
  | [] =>
      match n with
      | File _ _ => Ok (File content now)
      | Dir _ _ => Throw EISDIR
      end
  | seg :: rest =>
      match n with
      | File _ _ => Throw ENOTDIR
      | Dir m es =>
          match es !! seg with
          | Some c =>
              c' ← writeFile now rest content c;
              Ok (Dir m (<[seg := c']> es))
          | None =>
              match rest with
              | [] => Ok (Dir now (<[seg := File content now]> es))
              | _ :: _ => Throw ENOENT
              end
          end
      end
  end.

End NodeFs.

(** ** The world a command runs in

    The file system, the clock read by [Date.now()], the answers of the
    network to [fetch(url)] and the home directory of [os.homedir()]. *)

Inductive HttpOutcome : Type :=
| NetworkError (msg : string)
| Response (status : Z) (statusText : string) (body : string).

(** [response.ok] *)
Definition response_ok (status : Z) : bool :=
  (200 <=? status) && (status <=? 299).

Record World : Type := mkWorld {
  fs : node;
  clock : Z;
  net : string → HttpOutcome;
  homedir : path
}.

Definition set_fs (root : node) (w : World) : World :=
  {| fs := root; clock := clock w; net := net w; homedir := homedir w |}.

Definition set_clock (t : Z) (w : World) : World :=
  {| fs := fs w; clock := t; net := net w; homedir := homedir w |}.

(** Computations that may change the world and may throw. *)
Definition M (A : Type) : Type := World → Result A * World.

#[global] Instance M_ret : MRet M := λ A a w, (Ok a, w).

#[global] Instance M_bind : MBind M := λ A B k m w,
  match m w with
  | (Ok a, w') => k a w'
  | (Throw msg, w') => (Throw msg, w')
  end.

Definition throw {A} (msg : string) : M A := λ w, (Throw msg, w).

(** [try { m } catch (error) { h error.message }] *)
Definition try_catch {A} (m : M A) (h : string → M A) : M A := λ w,
  match m w with
  | (Ok a, w') => (Ok a, w')
  | (Throw msg, w') => h msg w'
  end.

(** An operation that only reads the world. *)
Definition reading {A} (f : World → Result A) : M A := λ w, (f w, w).

(** ** [bin/fetcher.js] *)

(** A configured source (an entry of [sources] in [.ampackage.json]);
    an absent key of the JavaScript object is [None]. *)
Record Source : Type := mkSource {
  src_name : string;
  src_type : string;
  src_url : option string;
  src_path : option string;
  src_branch : option string;
  src_default : option bool
}.

#[global] Instance Source_eq_dec : EqDecision Source.
Proof. solve_decision. Defined.

Definition getFileExtension (type : string) : string :=
  if decide (type = "component") then ".tsx" else ".ts".

Definition pluralizeType (type : string) : string := type +:+ "s".

(** The callback [file => file.endsWith('.ts') || file.endsWith('.tsx')]
    of the two directory listings. *)
Definition isTemplateFile (file : string) : bool :=
  JsString.endsWith ".ts" file || JsString.endsWith ".tsx" file.

(** [getCacheDir()] of [bin/config.js] *)
Definition getCacheDir (w : World) : path :=
  NodePath.join (homedir w) [".ampackage"; "cache"].

Module CacheManager.

Definition getCachePath (w : World) (source : Source) (type name : string)
  : path :=
  NodePath.join (getCacheDir w)
    [src_name source; pluralizeType type; name +:+ getFileExtension type].

Definition getSourceCacheDir (w : World) (source : Source) : path :=
  NodePath.join (getCacheDir w) [src_name source].

(** [ttl = 3600000] is the default of an omitted argument. *)
Definition isCacheValid (cachePath : path) (ttl : option Z) (w : World)
  : bool :=
  match NodeFs.stat cachePath (fs w) with
  | Ok mtime =>
      let age := clock w - mtime in
      bool_decide (age < default 3600000 ttl)
  | Throw _ => false
  end.

(** [null] is [None]. *)
Definition getCachedFile (source : Source) (type name : string)
    (ttl : option Z) (w : World) : Result (option string) :=
  let cachePath := getCachePath w source type name in
  if NodeFs.pathExists cachePath (fs w) && isCacheValid cachePath ttl w
  then content ← NodeFs.readFile cachePath (fs w); Ok (Some content)
  else Ok None.

Definition setCachedFile (source : Source) (type name content : string)
  : M unit := λ w,
  let cachePath := getCachePath w source type name in
  match NodeFs.ensureDir (clock w) (NodePath.dirname cachePath) (fs w) with
  | Throw msg => (Throw msg, w)
  | Ok fs1 =>
      match NodeFs.writeFile (clock w) cachePath content fs1 with
      | Throw msg => (Throw msg, set_fs fs1 w)
      | Ok fs2 => (Ok (), set_fs fs2 w)
      end
  end.

Definition listCachedTemplates (source : Source) (type : string) (w : World)
  : Result (list string) :=
  let typeDir :=
    NodePath.join (getCacheDir w) [src_name source; pluralizeType type] in
  if negb (NodeFs.pathExists typeDir (fs w)) then Ok []
  else
    files ← NodeFs.readdir typeDir (fs w);
    Ok (map NodePath.parseName (List.filter isTemplateFile files)).

End CacheManager.

Module GitHubFetcher.

(** A [url] key that is absent makes [url.includes] a [TypeError]. *)
Definition buildRawUrl (source : Source) (type name : string)
  : Result string :=
  let branch := default "main" (src_branch source) in
  let basePath := default "templates" (src_path source) in
  match src_url source with
  | None => Throw "Cannot read properties of undefined (reading 'includes')"
  | Some url =>
      if JsString.includes "github.com" url then
        let repoPath :=
          JsString.replace ".git" ""
            (JsString.replace "https://github.com/" "" url) in
        Ok ("https://raw.githubusercontent.com/" +:+ repoPath +:+ "/"
            +:+ branch +:+ "/" +:+ basePath +:+ "/" +:+ pluralizeType type
            +:+ "/" +:+ name +:+ getFileExtension type)
      else Throw "Invalid GitHub URL format"
  end.

(** The part of [fetchFile] after the cache was consulted. *)
Definition download (source : Source) (type name : string) : M string :=
  url ← reading (λ _, buildRawUrl source type name);
  try_catch
    (λ w,
       match net w url with
       | NetworkError msg => (Throw msg, w)
       | Response status statusText body =>
           if negb (response_ok status) then
             if decide (status = 404)
             then (Throw ("Template not found: " +:+ type +:+ "/" +:+ name), w)
             else (Throw ("Failed to fetch: " +:+ statusText), w)
           else
             (CacheManager.setCachedFile source type name body ≫=
                λ _, mret body) w
       end)
    (λ msg, throw ("Failed to fetch from GitHub: " +:+ msg)).

Definition fetchFile (source : Source) (type name : string)
    (useCache : bool) : M string :=
  cached ← (if useCache
            then reading (CacheManager.getCachedFile source type name
                            (Some 3600000))
            else mret None);
  match cached with
  | Some c => if JsString.truthy c then mret c else download source type name
  | None => download source type name
  end.

Definition listTemplates (source : Source) (type : string) (useCache : bool)
  : M (list string) :=
  if useCache then reading (CacheManager.listCachedTemplates source type)
  else mret [].

End GitHubFetcher.

Module NpmFetcher.

Definition fetchFile (source : Source) (type name : string)
    (useCache : bool) : M string :=
  cached ← (if useCache
            then reading (CacheManager.getCachedFile source type name
                            (Some 3600000))
            else mret None);
  match cached with
  | Some c =>
      if JsString.truthy c then mret c
      else throw "NPM source fetching not yet implemented"
  | None => throw "NPM source fetching not yet implemented"
  end.

Definition listTemplates (source : Source) (type : string) (useCache : bool)
  : M (list string) :=
  if useCache then reading (CacheManager.listCachedTemplates source type)
  else mret [].

End NpmFetcher.

Module LocalFetcher.

Definition getLocalPath (source : Source) (packageRoot : path) : path :=
  let localPath :=
    match src_path source with
    | Some p => if JsString.truthy p then p else "./templates"
    | None => "./templates"
    end in
  if NodePath.isAbsolute localPath then NodePath.join [] [localPath]
  else NodePath.join packageRoot [localPath].

Definition fetchFile (source : Source) (packageRoot : path)
    (type name : string) : M string :=
  let templatesDir := getLocalPath source packageRoot in
  let filePath :=
    NodePath.join templatesDir
      [pluralizeType type; name +:+ getFileExtension type] in
  reading (λ w,
    if negb (NodeFs.pathExists filePath (fs w))
    then Throw ("Template not found: " +:+ type +:+ "/" +:+ name)
    else NodeFs.readFile filePath (fs w)).

Definition listTemplates (source : Source) (packageRoot : path)
    (type : string) : M (list string) :=
  let templatesDir := getLocalPath source packageRoot in
  let typeDir := NodePath.join templatesDir [pluralizeType type] in
  reading (λ w,
    if negb (NodeFs.pathExists typeDir (fs w)) then Ok []
    else
      files ← NodeFs.readdir typeDir (fs w);
      Ok (map NodePath.parseName (List.filter isTemplateFile files))).

End LocalFetcher.

(** The three fetcher classes share the methods [fetchFile] and
    [listTemplates]. *)
Inductive Fetcher : Type :=
| GitHub (source : Source)
| Npm (source : Source)
| Local (source : Source) (packageRoot : path).

Definition createFetcher (source : Source) (packageRoot : path) : Fetcher :=
  if decide (src_type source = "github") then GitHub source
  else if decide (src_type source = "npm") then Npm source
  else Local source packageRoot.

Definition fetchFile (fetcher : Fetcher) (type name : string)
    (useCache : bool) : M string :=
  match fetcher with
  | GitHub source => GitHubFetcher.fetchFile source type name useCache
  | Npm source => NpmFetcher.fetchFile source type name useCache
  | Local source packageRoot =>
      LocalFetcher.fetchFile source packageRoot type name
  end.

Definition listTemplates (fetcher : Fetcher) (type : string)
    (useCache : bool) : M (list string) :=
  match fetcher with
  | GitHub source => GitHubFetcher.listTemplates source type useCache
  | Npm source => NpmFetcher.listTemplates source type useCache
  | Local source packageRoot =>
      LocalFetcher.listTemplates source packageRoot type
  end.

Definition newline : string := String "010"%char "".

(** The loop of [fetchTemplate]; [errors] is the array filled so far. *)
Fixpoint fetchTemplate_loop (errors : list string) (sources : list Source)
    (type name : string) (packageRoot : path) : M (string * Source) :=
  match sources with
  | [] =>
      throw ("Template not found in any source:" +:+ newline
             +:+ JsString.join newline errors)
  | source :: rest =>
      try_catch
        (content ← fetchFile (createFetcher source packageRoot) type name true;
         mret (content, source))
        (λ msg,
           fetchTemplate_loop (errors ++ [src_name source +:+ ": " +:+ msg])
             rest type name packageRoot)
  end.

Definition fetchTemplate (sources : list Source) (type name : string)
    (packageRoot : path) : M (string * Source) :=
  fetchTemplate_loop [] sources type name packageRoot.

(** ** [bin/config.js] *)

Record Cache : Type := mkCache {
  enabled : bool;
  ttl : Z
}.

Record Config : Type := mkConfig {
  sources : list Source;
  cache : Cache
}.

Definition defaultConfig : Config :=
  {| sources := [ {| src_name := "local"; src_type := "local";
                     src_url := None; src_path := Some "./templates";
                     src_branch := None; src_default := Some true |} ];
     cache := {| enabled := true; ttl := 3600000 |} |}.

(** What [fs.readJson] finds in a configuration file: the top-level keys
    that are present. *)
Record Document : Type := mkDocument {
  doc_sources : option (list Source);
  doc_cache : option Cache
}.

Inductive ConfigFile : Type :=
| Absent
| Unparsable
| Parsed (doc : Document).

Inductive ConfigLocation : Type := InCwd | InHome.

(** The state [config.js] works on: the file [.ampackage.json] in the
    current directory and in the home directory, whether the file system
    accepts a write, and the module-level object [defaultConfig], which
    the code hands out without copying it. *)
Record ConfigEnv : Type := mkConfigEnv {
  cwdFile : ConfigFile;
  homeFile : ConfigFile;
  writable : bool;
  defaults : Config
}.

Definition exists_file (f : ConfigFile) : bool :=
  match f with Absent => false | _ => true end.

Definition getConfigPath (env : ConfigEnv) : ConfigLocation :=
  if exists_file (cwdFile env) then InCwd else InHome.

Definition file_at (loc : ConfigLocation) (env : ConfigEnv) : ConfigFile :=
  match loc with InCwd => cwdFile env | InHome => homeFile env end.

Definition write_at (loc : ConfigLocation) (f : ConfigFile) (env : ConfigEnv)
  : ConfigEnv :=
  match loc with
  | InCwd => {| cwdFile := f; homeFile := homeFile env;
                writable := writable env; defaults := defaults env |}
  | InHome => {| cwdFile := cwdFile env; homeFile := f;
                 writable := writable env; defaults := defaults env |}
  end.

Definition set_default_sources (l : list Source) (env : ConfigEnv)
  : ConfigEnv :=
  {| cwdFile := cwdFile env; homeFile := homeFile env;
     writable := writable env;
     defaults := {| sources := l; cache := cache (defaults env) |} |}.

(** How the object returned by [loadConfig] is related to [defaultConfig]:
    it is that very object, or a fresh object whose [sources] array is the
    array of [defaultConfig], or it shares no mutable part with it. *)
Inductive Sharing : Type := IsDefault | SharesSources | Fresh.

(** [{ ...defaultConfig, ...config }]: a key of the file wins over the
    default as a whole. *)
Definition loadConfig (env : ConfigEnv) : Config * Sharing :=
  match file_at (getConfigPath env) env with
  | Absent => (defaults env, IsDefault)
  | Unparsable => (defaults env, IsDefault)
  | Parsed doc =>
      ({| sources := default (sources (defaults env)) (doc_sources doc);
          cache := default (cache (defaults env)) (doc_cache doc) |},
       match doc_sources doc with
       | Some _ => Fresh
       | None => SharesSources
       end)
  end.

Definition saveConfig (config : Config) (env : ConfigEnv)
  : Result ConfigLocation * ConfigEnv :=
  let configPath := getConfigPath env in
  if writable env then
    (Ok configPath,
     write_at configPath
       (Parsed {| doc_sources := Some (sources config);
                  doc_cache := Some (cache config) |}) env)
  else (Throw "EACCES: permission denied", env).

(** The options object the command line passes to [addSource]. *)
Record SourceOptions : Type := mkSourceOptions {
  opt_branch : option string;
  opt_path : option string;
  opt_default : option bool
}.

Definition noOptions : SourceOptions :=
  {| opt_branch := None; opt_path := None; opt_default := None |}.

(** The callback [s => s.name === name]. *)
Definition named (name : string) (s : Source) : bool :=
  bool_decide (src_name s = name).

(** [sources.findIndex(s => s.name === name)] *)
Fixpoint findIndex (name : string) (l : list Source) : option nat :=
  match l with
  | [] => None
  | s :: rest =>
      if named name s then Some O
      else S <$> findIndex name rest
  end.

Definition addSource (name type url : string) (options : SourceOptions)
    (env : ConfigEnv) : Result Source * ConfigEnv :=
  let '(config, sharing) := loadConfig env in
  let existingIndex := findIndex name (sources config) in
  let source :=
    {| src_name := name; src_type := type; src_url := Some url;
       src_path := opt_path options; src_branch := opt_branch options;
       src_default := opt_default options |} in
  let sources' :=
    match existingIndex with
    | Some i => <[i := source]> (sources config)
    | None => sources config ++ [source]
    end in
  (* the array is updated in place: [defaultConfig] sees it when shared *)
  let env1 :=
    match sharing with
    | Fresh => env
    | IsDefault | SharesSources => set_default_sources sources' env
    end in
  match saveConfig {| sources := sources'; cache := cache config |} env1 with
  | (Ok _, env2) => (Ok source, env2)
  | (Throw msg, env2) => (Throw msg, env2)
  end.

Definition removeSource (name : string) (env : ConfigEnv)
  : Result bool * ConfigEnv :=
  let '(config, sharing) := loadConfig env in
  let initialLength := length (sources config) in
  let sources' :=
    List.filter (λ s, negb (named name s)) (sources config) in
  (* [config.sources = ...] assigns a key of the object [loadConfig]
     returned *)
  let env1 :=
    match sharing with
    | IsDefault => set_default_sources sources' env
    | SharesSources | Fresh => env
    end in
  if decide (length sources' = initialLength)
  then (Throw ("Source '" +:+ name +:+ "' not found"), env1)
  else
    match saveConfig {| sources := sources'; cache := cache config |} env1 with
    | (Ok _, env2) => (Ok true, env2)
    | (Throw msg, env2) => (Throw msg, env2)
    end.

Definition getSources (env : ConfigEnv) : list Source :=
  sources (loadConfig env).1.

(** The document the next [loadConfig] reads. *)
Definition persisted (env : ConfigEnv) : ConfigFile :=
  file_at (getConfigPath env) env.

(** ** The [add] command: from the configuration to the fetch

    [const config = await loadConfig(); let sources = config.sources;]
    then, for a name, [fetchTemplate(sources, type, name, packageRoot)].
    With [--source] the sources are first filtered by that name; when none
    is left the command reports it and exits, which is a [Throw] here. *)
Definition add_fetch (only : option string) (type name : string)
    (packageRoot : path) (env : ConfigEnv) : M (string * Source) :=
  let config := (loadConfig env).1 in
  let sources :=
    match only with
    | Some n => List.filter (named n) (sources config)
    | None => sources config
    end in
  match only, sources with
  | Some n, [] => throw ("Source '" +:+ n +:+ "' not found")
  | _, _ => fetchTemplate sources type name packageRoot
  end.

(** ** Vocabulary of the statements *)

(** The source object [addSource] constructs. *)
Definition newSource (name type url : string) (options : SourceOptions)
  : Source :=
  {| src_name := name; src_type := type; src_url := Some url;
     src_path := opt_path options; src_branch := opt_branch options;
     src_default := opt_default options |}.

(** One iteration of the loop of [fetchTemplate]: the fetcher of a source
    is asked for the file. *)
Definition attempt (source : Source) (type name : string) (packageRoot : path)
  : M string :=
  fetchFile (createFetcher source packageRoot) type name true.

(** The attempt on [source] fails in the world [w]. *)
Definition failing (type name : string) (packageRoot : path) (w : World)
    (source : Source) : Prop :=
  is_ok (attempt source type name packageRoot w).1 = false.

(** [error.message] of a failed computation. *)
Definition message {A} (r : Result A) : string :=
  match r with Throw msg => msg | Ok _ => "" end.

(** The entry [fetchTemplate] pushes on [errors] for a source that failed. *)
Definition error_line (type name : string) (packageRoot : path) (w : World)
    (source : Source) : string :=
  src_name source +:+ ": " +:+ message (attempt source type name packageRoot w).1.

(** The directory [listCachedTemplates] reads. *)
Definition typeDir (w : World) (source : Source) (type : string) : path :=
  NodePath.join (getCacheDir w) [src_name source; pluralizeType type].

(** The message of the placeholder in [NpmFetcher.fetchFile]. *)
Definition notImplemented : string := "NPM source fetching not yet implemented".

(** What a fetch that consults the cache with a time-to-live of [ttl]
    milliseconds does with the entry it finds at the cache path: a fresh,
    non-empty file is returned, a fresh directory makes [readFile] throw,
    and in every other case the fetcher goes on with [otherwise]. *)
Definition through_cache (ttl : Z) (source : Source) (type name : string)
    (otherwise : M string) : M string := λ w,
  match NodeFs.lookup (CacheManager.getCachePath w source type name) (fs w) with
  | Some (File content mtime) =>
      if bool_decide (clock w - mtime < ttl) && JsString.truthy content
      then (Ok content, w) else otherwise w
  | Some (Dir mtime _) =>
      if bool_decide (clock w - mtime < ttl) then (Throw NodeFs.EISDIR, w)
      else otherwise w
  | None => otherwise w
  end.

(** *** Sample data *)

Definition localSource : Source :=
  {| src_name := "local"; src_type := "local"; src_url := None;
     src_path := Some "./templates"; src_branch := None;
     src_default := Some true |}.

Definition acmeSource : Source :=
  {| src_name := "acme"; src_type := "github";
     src_url := Some "https://github.com/acme/ui.git";
     src_path := None; src_branch := None; src_default := None |}.

Definition registrySource : Source :=
  {| src_name := "registry"; src_type := "npm";
     src_url := Some "@acme/ui-templates";
     src_path := None; src_branch := None; src_default := None |}.

Definition buttonText : string := "export const Button = () => null;".

Definition buttonUrl : string :=
  "https://raw.githubusercontent.com/acme/ui/main/templates/components/Button.tsx".

(** A network on which only the button of [acmeSource] is found. *)
Definition acmeNet (url : string) : HttpOutcome :=
  if decide (url = buttonUrl) then Response 200 "OK" buttonText
  else Response 404 "Not Found" "".

Definition offline (url : string) : HttpOutcome :=
  NetworkError "getaddrinfo ENOTFOUND raw.githubusercontent.com".

(** An empty disk at time 1000. *)
Definition emptyWorld (network : string → HttpOutcome) : World :=
  {| fs := Dir 0 ∅; clock := 1000; net := network;
     homedir := ["home"; "dev"] |}.

(** A disk whose cache holds [content], written at time 0, for the button
    of the source called [sourceName]; the clock shows [now]. *)
Definition cachedWorld (sourceName content : string) (now : Z)
    (network : string → HttpOutcome) : World :=
  {| fs :=
       Dir 0 {[ "home" := Dir 0 {[ "dev" := Dir 0 {[ ".ampackage" :=
         Dir 0 {[ "cache" := Dir 0 {[ sourceName := Dir 0 {[ "components" :=
           Dir 0 {[ "Button.tsx" := File content 0 ]} ]} ]} ]} ]} ]} ]};
     clock := now; net := network; homedir := ["home"; "dev"] |}.

Definition packageDir : path := ["opt"; "ampackage"].

(** No configuration file yet. *)
Definition freshEnv : ConfigEnv :=
  {| cwdFile := Absent; homeFile := Absent; writable := true;
     defaults := defaultConfig |}.

(** A configuration file in the home directory. *)
Definition homeEnv (l : list Source) (c : Cache) : ConfigEnv :=
  {| cwdFile := Absent;
     homeFile := Parsed {| doc_sources := Some l; doc_cache := Some c |};
     writable := true; defaults := defaultConfig |}.

(** A repository whose name contains [.git] before the suffix. *)
Definition pagesSource : Source :=
  {| src_name := "pages"; src_type := "github";
     src_url := Some "https://github.com/user/my.github.io.git";
     src_path := None; src_branch := None; src_default := None |}.

From Stdlib Require Import Sorted.
From stdpp Require pretty.

(** * The rest of the code

    ** [bin/config.js]: looking a source up *)

(** [config.sources.find(s => s.name === name)]; [undefined] is [None]. *)
Definition getSource (name : string) (env : ConfigEnv) : option Source :=
  List.find (named name) (sources (loadConfig env).1).

(** The configuration file [getConfigPath] does not point at. *)
Definition otherLocation (loc : ConfigLocation) : ConfigLocation :=
  match loc with InCwd => InHome | InHome => InCwd end.

(** ** [bin/fetcher.js]: a world at a later moment

    The disk of [w] when the clock shows [now] and the network answers as
    [network] does. *)
Definition later (now : Z) (network : string → HttpOutcome) (w : World)
  : World :=
  {| fs := fs w; clock := now; net := network; homedir := homedir w |}.

(** ** [bin/fetcher.js]: [listAllTemplates] *)

(** [set.add(x)] on a JavaScript [Set], kept in insertion order. *)
Definition set_add (x : string) (s : list string) : list string :=
  if decide (x ∈ s) then s else s ++ [x].

(** [templates.forEach(template => set.add(template))] *)
Definition set_addAll (templates : list string) (s : list string)
  : list string :=
  foldl (λ s x, set_add x s) s templates.

(** [array.sort()] without a comparator puts strings in ascending order of
    their code units; on a list of strings that is the order [String.leb],
    here reached by insertion. *)
Fixpoint sort_insert (x : string) (l : list string) : list string :=
  match l with
  | [] => [x]
  | y :: rest => if String.leb x y then x :: l else y :: sort_insert x rest
  end.

Definition sort (l : list string) : list string := foldr sort_insert [] l.

(** [const types = ['component', 'hook', 'util']] *)
Definition types : list string := ["component"; "hook"; "util"].

(** The object [allTemplates]: a set, later an array, per type. *)
Abbreviation Templates := (gmap string (list string)).

(** The inner loop over the types for one fetcher, inside its [try]: a
    listing that throws ends the loop for this source (a warning is
    printed) and what was added before stays. *)
Fixpoint listTypes (fetcher : Fetcher) (ts : list string)
    (allTemplates : Templates) (w : World) : Templates * World :=
  match ts with
  | [] => (allTemplates, w)
  | type :: rest =>
      match listTemplates fetcher type true w with
      | (Ok templates, w') =>
          listTypes fetcher rest
            (alter (set_addAll templates) type allTemplates) w'
      | (Throw _, w') => (allTemplates, w')
      end
  end.

Definition listAllTemplates (sources : list Source) (packageRoot : path)
    (w : World) : Templates * World :=
  let empty : Templates := list_to_map ((λ type, (type, [])) <$> types) in
  let '(allTemplates, w') :=
    foldl (λ '(allTemplates, w) source,
             listTypes (createFetcher source packageRoot) types
               allTemplates w)
          (empty, w) sources in
  (sort <$> allTemplates, w').

(** *** Sample data: a package with bundled templates, and a cache *)

Definition bundledWorld : World :=
  {| fs :=
       Dir 0 {[ "opt" := Dir 0 {[ "ampackage" := Dir 0 {[ "templates" :=
         Dir 0 {[ "components" :=
                    Dir 0 {[ "Modal.tsx" := File "modal" 0;
                             "Button.tsx" := File "local button" 0;
                             "notes.md" := File "notes" 0 ]};
                  "hooks" := Dir 0 {[ "useAuth.ts" := File "auth" 0 ]} ]} ]} ]};
                "home" := Dir 0 {[ "dev" := Dir 0 {[ ".ampackage" :=
         Dir 0 {[ "cache" := Dir 0 {[ "acme" := Dir 0 {[ "components" :=
           Dir 0 {[ "Button.tsx" := File buttonText 0;
                    "Card.tsx" := File "card" 0 ]} ]} ]} ]} ]} ]} ]};
     clock := 1000; net := acmeNet; homedir := ["home"; "dev"] |}.

(** In [listAllTemplates], the fetcher [fetcher] contributes [x] under
    [type]: the loop over [ts] reaches [type], every listing before it
    having succeeded, and the listing of [type] contains [x]. *)
Definition contributes (fetcher : Fetcher) (w : World) (ts : list string)
    (type x : string) : Prop :=
  ∃ before after names,
    ts = before ++ type :: after
    ∧ (∀ t, t ∈ before → is_ok (listTemplates fetcher t true w).1 = true)
    ∧ (listTemplates fetcher type true w).1 = Ok names
    ∧ x ∈ names.

(** The order of [sort]: [String.leb] and its strict part. *)
Definition le_string (x y : string) : Prop := String.leb x y = true.
Definition lt_string (x y : string) : Prop := String.ltb x y = true.

(** ** The [add] command (of the command line with remote sources)

    [fs.ensureDir] and [fs.writeFile] as computations on the world. *)

Definition ensureDir (p : path) : M unit := λ w,
  match NodeFs.ensureDir (clock w) p (fs w) with
  | Ok root => (Ok (), set_fs root w)
  | Throw msg => (Throw msg, w)
  end.

Definition writeFile (p : path) (content : string) : M unit := λ w,
  match NodeFs.writeFile (clock w) p content (fs w) with
  | Ok root => (Ok (), set_fs root w)
  | Throw msg => (Throw msg, w)
  end.

(** The options of [add]: [--dest] (default [src]), [--overwrite] and
    [--source]. *)
Record AddOptions : Type := mkAddOptions {
  add_dest : string;
  add_overwrite : bool;
  add_source : option string
}.

(** What the command prints for a name: that the file exists already, that
    the template was added (with the source it came from), or that adding
    it failed. *)
Inductive AddEvent : Type :=
| AlreadyExists (targetFile : path)
| Added (type name : string) (targetFile : path) (source : Source)
| FailedToAdd (type name msg : string).

Definition is_failure (e : AddEvent) : bool :=
  match e with FailedToAdd _ _ _ => true | _ => false end.

(** [path.join(targetDir, destDir, pluralizeType(type),
    name + getFileExtension(type))] *)
Definition targetFile (cwd : path) (dest type name : string) : path :=
  NodePath.join cwd [dest; pluralizeType type; name +:+ getFileExtension type].

(** The body of the loop over the names, with its [try] and [catch]. *)
Definition add_name (sources : list Source) (cwd packageRoot : path)
    (options : AddOptions) (type name : string) (w : World)
  : AddEvent * World :=
  let target := targetFile cwd (add_dest options) type name in
  if NodeFs.pathExists target (fs w) && negb (add_overwrite options)
  then (AlreadyExists target, w)
  else
    match
      ('(content, source) ← fetchTemplate sources type name packageRoot;
       _ ← ensureDir (NodePath.dirname target);
       _ ← writeFile target content;
       mret source) w
    with
    | (Ok source, w') => (Added type name target source, w')
    | (Throw msg, w') => (FailedToAdd type name msg, w')
    end.

Fixpoint add_names (sources : list Source) (cwd packageRoot : path)
    (options : AddOptions) (type : string) (names : list string) (w : World)
  : list AddEvent * World :=
  match names with
  | [] => ([], w)
  | name :: rest =>
      let '(event, w1) := add_name sources cwd packageRoot options type name w in
      let '(events, w2) :=
        add_names sources cwd packageRoot options type rest w1 in
      (event :: events, w2)
  end.

(** The outcome of the command: the exit code of the process and what was
    printed for the names; [None] stands for the report that the source of
    [--source] is not configured. *)
Record AddOutcome : Type := mkAddOutcome {
  exitCode : Z;
  events : option (list AddEvent)
}.

(** [options.source] as the test [if (options.source)] sees it: the name,
    unless the option is absent or the empty string. *)
Definition sourceOption (options : AddOptions) : option string :=
  match add_source options with
  | Some n => if JsString.truthy n then Some n else None
  | None => None
  end.

Definition add (env : ConfigEnv) (cwd packageRoot : path) (type : string)
    (names : list string) (options : AddOptions) (w : World)
  : AddOutcome * World :=
  let config := (loadConfig env).1 in
  let sources :=
    match sourceOption options with
    | Some n => List.filter (named n) (sources config)
    | None => sources config
    end in
  match sourceOption options, sources with
  | Some _, [] => ({| exitCode := 1; events := None |}, w)
  | _, _ =>
      let '(events, w') :=
        add_names sources cwd packageRoot options type names w in
      ({| exitCode := if existsb is_failure events then 1 else 0;
          events := Some events |}, w')
  end.

Definition projectDir : path := ["home"; "dev"; "app"].

(** The event [e] is the report for [name]. *)
Definition concerns (cwd : path) (options : AddOptions) (type name : string)
    (e : AddEvent) : Prop :=
  match e with
  | AlreadyExists target => target = targetFile cwd (add_dest options) type name
  | Added type' name' target _ =>
      type' = type ∧ name' = name
      ∧ target = targetFile cwd (add_dest options) type name
  | FailedToAdd type' name' _ => type' = type ∧ name' = name
  end.

(** A string that [path.join] takes as one segment of its own: it has no
    separator and is none of the empty string, [.] and [..]. *)
Definition plain (s : string) : Prop :=
  JsString.includes "/" s = false ∧ s ≠ "" ∧ s ≠ "." ∧ s ≠ "..".

(** ** [bin/git-pusher.js]

    [simple-git] is a capability the code is handed: what a git command
    answers, and what it does to the files, is not fixed here.  A command
    is answered by [git], from the command, the commands run before and the
    disk; the commands run are recorded in order. *)

Inductive GitCommand : Type :=
| GitFetch (dir : path)
| GitPull (dir : path)
| GitClone (url : option string) (dir : path)
| GitCheckoutLocalBranch (dir : path) (branch : string)
| GitAdd (dir : path) (file : path)
| GitStatus (dir : path)
| GitCommit (dir : path) (message : string)
| GitPush (dir : path) (remote branch : string).

(** The answer to a command: its result, which for [status] is the list
    of the files it reports ([status.files]), and the disk afterwards. *)
Abbreviation Git :=
  (GitCommand → list GitCommand → node → Result (list string) * node).

Record PushState : Type := mkPushState {
  world : World;
  commands : list GitCommand
}.

Definition P (A : Type) : Type := PushState → Result A * PushState.

#[global] Instance P_ret : MRet P := λ A a st, (Ok a, st).

#[global] Instance P_bind : MBind P := λ A B k m st,
  match m st with
  | (Ok a, st') => k a st'
  | (Throw msg, st') => (Throw msg, st')
  end.

(** A computation on the world, as one on the push state. *)
Definition onWorld {A} (m : M A) : P A := λ st,
  let '(r, w') := m (world st) in
  (r, {| world := w'; commands := commands st |}).

(** Running a git command: it is recorded, and its answer decides the
    result and the disk. *)
Definition run (git : Git) (c : GitCommand) : P (list string) := λ st,
  let '(answer, root) := git c (commands st) (fs (world st)) in
  (answer, {| world := set_fs root (world st);
              commands := commands st ++ [c] |}).

(** [simpleGit(dir)] refuses a base directory that is not an existing
    directory. *)
Definition simpleGit (dir : path) : P unit := λ st,
  match NodeFs.lookup dir (fs (world st)) with
  | Some (Dir _ _) => (Ok (), st)
  | _ => (Throw "Cannot use simple-git on a directory that does not exist",
          st)
  end.

(** What [pushTemplate] and [createPullRequest] return: [true], [false],
    or the branch and the URL to compare it at. *)
Inductive Pushed : Type :=
| PushedTrue
| PushedFalse
| PushedBranch (branch url : string).

Module GitPusher.

(** [this.repoDir] *)
Definition repoDir (source : Source) (w : World) : path :=
  NodePath.join (homedir w) [".ampackage"; "repos"; src_name source].

Definition ensureRepo (git : Git) (source : Source) : P path := λ st,
  let dir := repoDir source (world st) in
  (if NodeFs.pathExists dir (fs (world st)) then
     _ ← simpleGit dir;
     _ ← run git (GitFetch dir);
     _ ← run git (GitPull dir);
     _ ← simpleGit dir;
     mret dir
   else
     _ ← onWorld (ensureDir (NodePath.dirname dir));
     _ ← run git (GitClone (src_url source) dir);
     _ ← simpleGit dir;
     mret dir) st.

(** [source.path || 'templates'], and the file inside the clone. *)
Definition filePath (source : Source) (dir : path) (type name : string)
  : path :=
  let basePath :=
    match src_path source with
    | Some p => if JsString.truthy p then p else "templates"
    | None => "templates"
    end in
  NodePath.join dir
    [basePath; pluralizeType type; name +:+ getFileExtension type].

(** [x || d] for a string that may be absent. *)
Definition orElse (x : option string) (d : string) : string :=
  match x with
  | Some s => if JsString.truthy s then s else d
  | None => d
  end.

(** [try { m } catch (error) { throw new Error(prefix + error.message) }] *)
Definition wrapping {A} (prefix : string) (m : P A) : P A := λ st,
  match m st with
  | (Ok a, st') => (Ok a, st')
  | (Throw msg, st') => (Throw (prefix +:+ msg), st')
  end.

Definition pushTemplate (git : Git) (source : Source)
    (type name content : string) (commitMessage : option string)
  : P Pushed :=
  wrapping "Failed to push to Git repository: "
    (dir ← ensureRepo git source;
     let file := filePath source dir type name in
     _ ← onWorld (ensureDir (NodePath.dirname file));
     _ ← onWorld (writeFile file content);
     _ ← run git (GitAdd dir file);
     files ← run git (GitStatus dir);
     match files with
     | [] => mret PushedFalse
     | _ :: _ =>
         let message :=
           orElse commitMessage ("Update " +:+ type +:+ ": " +:+ name) in
         _ ← run git (GitCommit dir message);
         let branch := orElse (src_branch source) "main" in
         _ ← run git (GitPush dir "origin" branch);
         mret PushedTrue
     end).

(** [`add-${type}-${name}-${Date.now()}`] *)
Definition branchName (type name : string) (now : Z) : string :=
  "add-" +:+ type +:+ "-" +:+ name +:+ "-" +:+ pretty.pretty now.

Definition createPullRequest (git : Git) (source : Source)
    (type name content : string) (title description : option string)
  : P Pushed :=
  wrapping "Failed to create pull request: "
    (dir ← ensureRepo git source;
     now ← (λ st, (Ok (clock (world st)), st));
     let branch := branchName type name now in
     _ ← run git (GitCheckoutLocalBranch dir branch);
     let file := filePath source dir type name in
     _ ← onWorld (ensureDir (NodePath.dirname file));
     _ ← onWorld (writeFile file content);
     _ ← run git (GitAdd dir file);
     files ← run git (GitStatus dir);
     match files with
     | [] => mret PushedFalse
     | _ :: _ =>
         let message :=
           orElse title ("Add " +:+ type +:+ ": " +:+ name) in
         _ ← run git (GitCommit dir message);
         _ ← run git (GitPush dir "origin" branch);
         mret (PushedBranch branch
                 (default "undefined" (src_url source)
                  +:+ "/compare/" +:+ branch))
     end).

End GitPusher.

(** The options of [pushToRemote]. *)
Record PushOptions : Type := mkPushOptions {
  createPR : bool;
  commitMessage : option string;
  title : option string;
  description : option string
}.

Definition pushToRemote (git : Git) (source : Source)
    (type name content : string) (options : PushOptions) : P Pushed :=
  if decide (src_type source ≠ "github") then
    λ st, (Throw ("Pushing to " +:+ src_type source
                  +:+ " sources is not supported yet"), st)
  else if createPR options then
    GitPusher.createPullRequest git source type name content
      (title options) (description options)
  else
    GitPusher.pushTemplate git source type name content
      (commitMessage options).

(** *** Sample data: a git that clones an empty directory and always
    finds one changed file *)

Definition obligingGit : Git := λ c _ root,
  match c with
  | GitClone _ dir =>
      match NodeFs.ensureDir 0 dir root with
      | Ok root' => (Ok [], root')
      | Throw msg => (Throw msg, root)
      end
  | GitStatus _ => (Ok ["changed"], root)
  | _ => (Ok [], root)
  end.

(** A git whose working tree is always clean. *)
Definition cleanGit : Git := λ c history root,
  match c with
  | GitStatus _ => (Ok [], root)
  | _ => obligingGit c history root
  end.

Definition freshPush : PushState :=
  {| world := emptyWorld offline; commands := [] |}.

(** *** The commands a push is meant to run

    First the clone is updated, or made; then, for a pull request, the
    branch is created; then the file is staged, the status is asked for,
    and the commit is made and pushed. *)
Definition plan (source : Source) (type name : string)
    (options : PushOptions) (st : PushState) : list GitCommand :=
  let dir := GitPusher.repoDir source (world st) in
  let file := GitPusher.filePath source dir type name in
  let branch := GitPusher.branchName type name (clock (world st)) in
  (if NodeFs.pathExists dir (fs (world st))
   then [GitFetch dir; GitPull dir]
   else [GitClone (src_url source) dir])
  ++ (if createPR options then [GitCheckoutLocalBranch dir branch] else [])
  ++ [GitAdd dir file; GitStatus dir]
  ++ (if createPR options
      then [GitCommit dir
              (GitPusher.orElse (title options)
                 ("Add " +:+ type +:+ ": " +:+ name));
            GitPush dir "origin" branch]
      else [GitCommit dir
              (GitPusher.orElse (commitMessage options)
                 ("Update " +:+ type +:+ ": " +:+ name));
            GitPush dir "origin"
              (GitPusher.orElse (src_branch source) "main")]).

(** * Proofs *)

(** Unfolds the monad of world-changing computations. *)
Ltac unfold_M :=
  unfold mbind, mret, M_bind, M_ret, reading, throw, try_catch in *.


(** * Properties of the configuration store *)

Section ConfigStore.

Implicit Types (env : ConfigEnv) (name : string) (l : list Source).

Lemma findIndex_None name l :
  findIndex name l = None ↔ ∀ s, s ∈ l → src_name s ≠ name.
Proof.
  induction l as [|a l IH]; simpl.
  - split; [intros _ s Hs; by apply not_elem_of_nil in Hs | done].
  - unfold named at 1. case_bool_decide as Ha.
    + split; [done | intros H; exfalso; apply (H a); [left | done]].
    + destruct (findIndex name l) eqn:E; simpl.
      * split; [done | intros H]. exfalso.
        assert (Some n = None) as Hn; [|done].
        apply IH. intros s Hs. apply H. by right.
      * split; [intros _ s Hs | done].
        apply elem_of_cons in Hs as [-> | Hs]; [done |].
        by apply IH.
Qed.

Lemma findIndex_Some name l i :
  findIndex name l = Some i →
  ∃ old, l !! i = Some old ∧ src_name old = name.
Proof.
  revert i. induction l as [|a l IH]; intros i; simpl; [done |].
  unfold named at 1. case_bool_decide as Ha.
  - intros [= <-]. by exists a.
  - destruct (findIndex name l) as [j|]; simpl; [|done].
    intros [= <-]. by apply IH.
Qed.

Lemma findIndex_unique name l i old :
  NoDup (src_name <$> l) → l !! i = Some old → src_name old = name →
  findIndex name l = Some i.
Proof.
  intros Hnd Hi Hn.
  destruct (findIndex name l) as [j|] eqn:E.
  - apply findIndex_Some in E as (old' & Hj & Hn').
    f_equal. eapply NoDup_lookup; [exact Hnd | |].
    + rewrite list_lookup_fmap, Hj. simpl. by rewrite Hn'.
    + rewrite list_lookup_fmap, Hi. simpl. by rewrite Hn.
  - exfalso. rewrite findIndex_None in E.
    apply (E old); [|done]. by eapply list_elem_of_lookup_2.
Qed.

Lemma names_insert l i old s :
  l !! i = Some old → src_name old = src_name s →
  src_name <$> <[i := s]> l = src_name <$> l.
Proof.
  intros Hi Hn. rewrite list_fmap_insert.
  apply list_insert_id. rewrite list_lookup_fmap, Hi. simpl. by rewrite Hn.
Qed.

Lemma filter_named_nil name l :
  (∀ s, s ∈ l → src_name s ≠ name) → List.filter (named name) l = [].
Proof.
  induction l as [|a l IH]; simpl; intros H; [done |].
  unfold named at 1. rewrite bool_decide_false by (apply H; by left).
  apply IH. intros s Hs. apply H. by right.
Qed.

Lemma count_named_NoDup name l :
  NoDup (src_name <$> l) → name ∈ src_name <$> l →
  length (List.filter (named name) l) = 1%nat.
Proof.
  induction l as [|a l IH]; simpl; intros Hnd Hin.
  - by apply not_elem_of_nil in Hin.
  - apply NoDup_cons in Hnd as [Ha Hnd]. unfold named at 1.
    case_bool_decide as Hn.
    + simpl. f_equal.
      rewrite filter_named_nil; [done |].
      intros s Hs Hs'. apply Ha. rewrite Hn, <- Hs'.
      by apply list_elem_of_fmap_2.
    + apply IH; [done |]. apply elem_of_cons in Hin as [Hin | Hin]; [congruence | done].
Qed.

Lemma filter_keep_all name l :
  (∀ s, s ∈ l → src_name s ≠ name) →
  List.filter (λ s, negb (named name s)) l = l.
Proof.
  induction l as [|a l IH]; simpl; intros H; [done |].
  unfold named at 1. rewrite bool_decide_false; simpl.
  - f_equal. apply IH. intros s Hs. apply H. by right.
  - apply H. by left.
Qed.

Lemma filter_drops_some name l s :
  s ∈ l → src_name s = name →
  length (List.filter (λ s, negb (named name s)) l) ≠ length l.
Proof.
  intros Hs Hn Hlen.
  assert (∀ l', length (List.filter (λ s, negb (named name s)) l') ≤ length l')%nat
    as Hle.
  { induction l' as [|a l' IH]; simpl; [lia |].
    destruct (negb (named name a)); simpl; lia. }
  induction l as [|a l IH]; simpl in *; [by apply not_elem_of_nil in Hs |].
  apply elem_of_cons in Hs as [<- | Hs].
  - unfold named at 1 in Hlen. rewrite bool_decide_true in Hlen by done.
    simpl in Hlen. specialize (Hle l). lia.
  - destruct (negb (named name a)); simpl in Hlen.
    + apply IH; [done | lia].
    + specialize (Hle l). lia.
Qed.

(** *** Loading and saving *)

Lemma set_default_sources_same env :
  set_default_sources (sources (defaults env)) env = env.
Proof. by destruct env as [? ? ? [? ?]]. Qed.

Lemma loadConfig_set_default l env sharing config :
  loadConfig env = (config, sharing) →
  sharing ≠ Fresh →
  loadConfig (set_default_sources l env)
  = ({| sources := l; cache := cache config |}, sharing).
Proof.
  unfold loadConfig, getConfigPath. destruct env as [cf hf wr df]; simpl.
  destruct cf as [| |[[ss|] cc]], hf as [| |[[ss'|] cc']]; simpl;
    intros [= <- <-] Hs; try done.
Qed.

Lemma saveConfig_ok config env :
  writable env = true →
  ∃ env', saveConfig config env = (Ok (getConfigPath env), env')
    ∧ persisted env'
      = Parsed {| doc_sources := Some (sources config);
                  doc_cache := Some (cache config) |}
    ∧ writable env' = true
    ∧ defaults env' = defaults env.
Proof.
  intros Hw. unfold saveConfig. rewrite Hw. eexists. split; [done |].
  unfold persisted, getConfigPath.
  destruct env as [cf hf wr df]; simpl. by destruct cf.
Qed.

Lemma getSources_persisted env ss cc :
  persisted env = Parsed {| doc_sources := Some ss; doc_cache := Some cc |} →
  loadConfig env = ({| sources := ss; cache := cc |}, Fresh).
Proof. unfold persisted, loadConfig. by intros ->. Qed.

End ConfigStore.

Section ConfigClaims.

Implicit Types (env : ConfigEnv) (name : string) (l : list Source).

Lemma removeSource_absent env name :
  (∀ s, s ∈ getSources env → src_name s ≠ name) →
  removeSource name env
  = (Throw ("Source '" +:+ name +:+ "' not found"), env).
Proof.
  unfold getSources, removeSource. intros H.
  destruct (loadConfig env) as [config sharing] eqn:E. simpl in H.
  rewrite (filter_keep_all name (sources config) H).
  rewrite decide_True by done. f_equal.
  destruct sharing; try done.
  assert (config = defaults env) as ->; [|apply set_default_sources_same].
  unfold loadConfig in E.
  destruct (file_at _ env) as [| |doc]; try by inversion E.
  destruct (doc_sources doc); by inversion E.
Qed.

(** What a successful [addSource] leaves behind. *)
Lemma addSource_spec env name type url options :
  writable env = true →
  let source :=
    {| src_name := name; src_type := type; src_url := Some url;
       src_path := opt_path options; src_branch := opt_branch options;
       src_default := opt_default options |} in
  let sources' :=
    match findIndex name (getSources env) with
    | Some i => <[i := source]> (getSources env)
    | None => getSources env ++ [source]
    end in
  ∃ env', addSource name type url options env = (Ok source, env')
    ∧ persisted env'
      = Parsed {| doc_sources := Some sources';
                  doc_cache := Some (cache (loadConfig env).1) |}
    ∧ getSources env' = sources'
    ∧ writable env' = true.
Proof.
  intros Hw source sources'. unfold addSource, getSources in *.
  destruct (loadConfig env) as [config sharing] eqn:E. simpl in *.
  fold source. fold sources'.
  set (env1 := match sharing with Fresh => env | _ => _ end).
  assert (writable env1 = true) as Hw1 by (by destruct sharing).
  destruct (saveConfig_ok {| sources := sources'; cache := cache config |}
              env1 Hw1) as (env' & -> & Hp & Hw' & _).
  exists env'. split_and!; try done.
  by rewrite (getSources_persisted _ _ _ Hp).
Qed.

(** A write that is refused surfaces as the error of [addSource]; the
    files are as before. *)
Lemma addSource_write_refused env name type url options :
  writable env = false →
  ∃ env', addSource name type url options env
          = (Throw "EACCES: permission denied", env')
    ∧ cwdFile env' = cwdFile env ∧ homeFile env' = homeFile env.
Proof.
  intros Hw. unfold addSource.
  destruct (loadConfig env) as [config sharing].
  set (env1 := match sharing with Fresh => env | _ => _ end).
  assert (writable env1 = false ∧ cwdFile env1 = cwdFile env
          ∧ homeFile env1 = homeFile env) as (Hw1 & ? & ?)
    by (by destruct sharing).
  unfold saveConfig. rewrite Hw1. by exists env1.
Qed.

End ConfigClaims.

Section ConfigTheorems.

Implicit Types (env : ConfigEnv) (name : string) (l : list Source).

(** One [addSource] on a list of sources with unique names. *)
Lemma addSource_unique env name type url options :
  NoDup (src_name <$> getSources env) →
  writable env = true →
  let source := newSource name type url options in
  ∃ env', addSource name type url options env = (Ok source, env')
    ∧ writable env' = true
    ∧ persisted env'
      = Parsed {| doc_sources := Some (getSources env');
                  doc_cache := Some (cache (loadConfig env).1) |}
    ∧ (∀ i old, getSources env !! i = Some old → src_name old = name →
         getSources env' = <[i := source]> (getSources env))
    ∧ ((∀ s, s ∈ getSources env → src_name s ≠ name) →
         getSources env' = getSources env ++ [source])
    ∧ NoDup (src_name <$> getSources env')
    ∧ length (List.filter (named name) (getSources env')) = 1%nat
    ∧ ∃ i, getSources env' !! i = Some source.
Proof.
  intros Hnd Hw source.
  destruct (addSource_spec env name type url options Hw)
    as (env' & Hrun & Hp & Hs & Hw').
  exists env'. fold (newSource name type url options) in Hrun, Hp, Hs.
  fold source in Hrun, Hp, Hs.
  assert (NoDup (src_name <$> getSources env') ∧ name ∈ src_name <$> getSources env'
          ∧ ∃ i, getSources env' !! i = Some source) as (Hnd' & Hin & Hat).
  { rewrite Hs. destruct (findIndex name (getSources env)) as [i|] eqn:E.
    - destruct (findIndex_Some _ _ _ E) as (old & Hi & Hn).
      rewrite (names_insert _ _ old) by done. split_and!; [done | |].
      + rewrite <- Hn. apply list_elem_of_fmap_2.
        by eapply list_elem_of_lookup_2.
      + exists i. apply list_lookup_insert_eq. by eapply lookup_lt_Some.
    - rewrite fmap_app. simpl. split_and!.
      + apply NoDup_app. split_and!; [done | | apply NoDup_singleton].
        intros x Hx Hx'. apply list_elem_of_singleton in Hx'. subst x.
        apply list_elem_of_fmap in Hx as (s & Hs1 & Hs2).
        rewrite findIndex_None in E. by apply (E s).
      + apply elem_of_app. right. by apply list_elem_of_singleton.
      + exists (length (getSources env)).
        by rewrite lookup_app_r, Nat.sub_diag by lia. }
  split_and!; try done.
  - by rewrite Hp, Hs.
  - intros i old Hi Hn. by rewrite Hs, (findIndex_unique name _ i old).
  - intros Hne. rewrite Hs.
    by rewrite (proj2 (findIndex_None name (getSources env))).
  - by apply count_named_NoDup.
Qed.

End ConfigTheorems.

(** * Properties of the file system model *)

Section FileSystem.

Implicit Types (p : path) (n : node) (now : Z).

Lemma rbind_Ok {A B} (r : Result A) (k : A → Result B) b :
  r ≫= k = Ok b → ∃ a, r = Ok a ∧ k a = Ok b.
Proof. destruct r as [a|]; intros H; [by exists a | discriminate H]. Qed.

Lemma rbind_Throw {A B} (r : Result A) (k : A → Result B) msg :
  r ≫= k = Throw msg →
  r = Throw msg ∨ ∃ a, r = Ok a ∧ k a = Throw msg.
Proof.
  destruct r as [a|]; intros H; [right; by exists a | left].
  change (@Throw B msg0 = Throw msg) in H. by injection H as ->.
Qed.

Lemma ensureDir_nil now n n1 :
  NodeFs.ensureDir now [] n = Ok n1 → n1 = n.
Proof. destruct n; simpl; congruence. Qed.

Lemma ensureDir_cons now seg p n n1 :
  NodeFs.ensureDir now (seg :: p) n = Ok n1 →
  ∃ m es c',
    n = Dir m es ∧
    match es !! seg with
    | Some c => NodeFs.ensureDir now p c = Ok c'
                ∧ n1 = Dir m (<[seg := c']> es)
    | None => NodeFs.ensureDir now p (Dir now ∅) = Ok c'
              ∧ n1 = Dir now (<[seg := c']> es)
    end.
Proof.
  destruct n as [|m es]; [by simpl |]. cbn [NodeFs.ensureDir].
  intros H. exists m, es.
  destruct (es !! seg) as [c|];
    apply rbind_Ok in H as (c' & Hc' & [= <-]); exists c'; by split_and!.
Qed.

Lemma writeFile_cons_Some now seg p content m es c :
  es !! seg = Some c →
  NodeFs.writeFile now (seg :: p) content (Dir m es)
  = NodeFs.writeFile now p content c ≫= λ c', Ok (Dir m (<[seg := c']> es)).
Proof. intros H. cbn [NodeFs.writeFile]. by rewrite H. Qed.

(** A write that fails after its directory was ensured has created
    nothing: the directory was there already. *)
Lemma ensureDir_writeFile_fail now content p :
  ∀ n n1 msg,
    NodeFs.ensureDir now (removelast p) n = Ok n1 →
    NodeFs.writeFile now p content n1 = Throw msg →
    n1 = n.
Proof.
  induction p as [|seg p IH]; intros n n1 msg He Hw.
  - by apply ensureDir_nil in He.
  - destruct p as [|seg' rest]; [by apply ensureDir_nil in He |].
    change (removelast (seg :: seg' :: rest))
      with (seg :: removelast (seg' :: rest)) in He.
    apply ensureDir_cons in He as (m & es & c' & -> & He).
    destruct (es !! seg) as [c|] eqn:Hc; destruct He as [Hc' ->];
      rewrite (writeFile_cons_Some _ _ _ _ _ _ c') in Hw
        by apply lookup_insert_eq;
      apply rbind_Throw in Hw as [Hw | (? & _ & ?)]; try done;
      pose proof (IH _ _ _ Hc' Hw) as ->.
    + f_equal. by apply insert_id.
    + exfalso. destruct rest as [|r rs]; [done |].
      change (removelast (seg' :: r :: rs))
        with (seg' :: removelast (r :: rs)) in Hc'.
      apply ensureDir_cons in Hc' as (? & ? & c'' & [= <- <-] & Hc').
      rewrite lookup_empty in Hc'. destruct Hc' as [_ Hc'].
      assert (<[seg' := c'']> (∅ : gmap string node) = ∅) as Hne
        by congruence.
      by apply insert_non_empty in Hne.
Qed.

End FileSystem.

(** * Fetchers: a failed attempt changes nothing *)

Section Fetchers.

Implicit Types (w : World) (source : Source) (type name : string).

Lemma set_fs_same w : set_fs (fs w) w = w.
Proof. by destruct w. Qed.

Lemma setCachedFile_fail source type name content w msg w' :
  CacheManager.setCachedFile source type name content w = (Throw msg, w') →
  w' = w.
Proof.
  unfold CacheManager.setCachedFile.
  destruct (NodeFs.ensureDir _ _ _) as [fs1|] eqn:He; [|congruence].
  destruct (NodeFs.writeFile _ _ _ _) as [fs2|] eqn:Hw; [done |].
  intros [= _ <-].
  rewrite (ensureDir_writeFile_fail _ _ _ _ _ _ He Hw).
  apply set_fs_same.
Qed.

Lemma download_fail source type name w msg w' :
  GitHubFetcher.download source type name w = (Throw msg, w') → w' = w.
Proof.
  unfold GitHubFetcher.download. unfold_M.
  destruct (GitHubFetcher.buildRawUrl source type name) as [url|];
    [|congruence].
  destruct (net w url) as [e|status statusText body]; [congruence |].
  destruct (negb (response_ok status)); [case_decide; congruence |].
  destruct (CacheManager.setCachedFile source type name body w)
    as [[[]|e] w1] eqn:Hs; [done |].
  intros [= _ <-]. by eapply setCachedFile_fail.
Qed.

Lemma GitHubFetcher_fetchFile_fail source type name useCache w msg w' :
  GitHubFetcher.fetchFile source type name useCache w = (Throw msg, w') →
  w' = w.
Proof.
  unfold GitHubFetcher.fetchFile. unfold_M.
  destruct useCache.
  - destruct (CacheManager.getCachedFile _ _ _ _ w) as [[c|]|];
      [|apply download_fail | congruence].
    destruct (JsString.truthy c); [congruence | apply download_fail].
  - apply download_fail.
Qed.

Lemma NpmFetcher_fetchFile_world source type name useCache w :
  (NpmFetcher.fetchFile source type name useCache w).2 = w.
Proof.
  unfold NpmFetcher.fetchFile. unfold_M.
  destruct useCache; [|done].
  destruct (CacheManager.getCachedFile _ _ _ _ w) as [[c|]|]; try done.
  by destruct (JsString.truthy c).
Qed.

Lemma LocalFetcher_fetchFile_world source packageRoot type name w :
  (LocalFetcher.fetchFile source packageRoot type name w).2 = w.
Proof. done. Qed.

Lemma fetchFile_fail fetcher type name useCache w msg w' :
  fetchFile fetcher type name useCache w = (Throw msg, w') → w' = w.
Proof.
  destruct fetcher as [source|source|source packageRoot]; simpl; intros H.
  - by eapply GitHubFetcher_fetchFile_fail.
  - pose proof (NpmFetcher_fetchFile_world source type name useCache w) as E.
    by rewrite H in E.
  - pose proof (LocalFetcher_fetchFile_world source packageRoot type name w)
      as E.
    by rewrite H in E.
Qed.

End Fetchers.

(** * The resolution engine *)

Section Resolution.

Variables (type name : string) (packageRoot : path).

Implicit Types (w : World) (source : Source) (errors : list string).

Local Abbreviation fails := (failing type name packageRoot).

Lemma attempt_fail w source :
  fails w source →
  attempt source type name packageRoot w
  = (Throw (message (attempt source type name packageRoot w).1), w).
Proof.
  unfold failing. destruct (attempt _ _ _ _ w) as [[c|msg] w'] eqn:E;
    simpl; [done | intros _].
  by rewrite (fetchFile_fail _ _ _ _ _ _ _ E).
Qed.

Lemma loop_cons_fail errors source rest w :
  fails w source →
  fetchTemplate_loop errors (source :: rest) type name packageRoot w
  = fetchTemplate_loop
      (errors ++ [error_line type name packageRoot w source])
      rest type name packageRoot w.
Proof.
  intros Hf. cbn [fetchTemplate_loop]. unfold try_catch, mbind, M_bind at 1.
  fold (attempt source type name packageRoot).
  by rewrite (attempt_fail _ _ Hf).
Qed.

Lemma loop_cons_ok errors source rest w content w' :
  attempt source type name packageRoot w = (Ok content, w') →
  fetchTemplate_loop errors (source :: rest) type name packageRoot w
  = (Ok (content, source), w').
Proof.
  intros Ha. cbn [fetchTemplate_loop]. unfold try_catch, mbind, M_bind at 1.
  fold (attempt source type name packageRoot).
  by rewrite Ha.
Qed.

Lemma loop_all_fail sources : ∀ errors w,
  (∀ source, source ∈ sources → fails w source) →
  fetchTemplate_loop errors sources type name packageRoot w
  = (Throw ("Template not found in any source:" +:+ newline
            +:+ JsString.join newline
                  (errors ++ map (error_line type name packageRoot w) sources)),
     w).
Proof.
  induction sources as [|source rest IH]; intros errors w Hall.
  - simpl. by rewrite app_nil_r.
  - rewrite loop_cons_fail by (apply Hall; by left).
    rewrite IH by (intros s Hs; apply Hall; by right).
    by rewrite <- app_assoc.
Qed.

(** Once a source succeeds after a run of failures, the sources behind
    it play no part. *)
Lemma loop_stops before : ∀ errors source others w content w',
  (∀ s, s ∈ before → fails w s) →
  attempt source type name packageRoot w = (Ok content, w') →
  fetchTemplate_loop errors (before ++ source :: others)
    type name packageRoot w
  = (Ok (content, source), w').
Proof.
  induction before as [|s before IH];
    intros errors source others w content w' Hb Ha; simpl app.
  - by apply loop_cons_ok.
  - rewrite loop_cons_fail by (apply Hb; by left).
    apply IH; [|done]. intros x Hx. apply Hb. by right.
Qed.

(** A list with a source that does not fail splits at the first one. *)
Lemma first_success_split sources w :
  (∃ source, source ∈ sources ∧ ¬ fails w source) →
  ∃ before source after content w',
    sources = before ++ source :: after
    ∧ (∀ s, s ∈ before → fails w s)
    ∧ attempt source type name packageRoot w = (Ok content, w').
Proof.
  induction sources as [|source rest IH]; intros (s0 & Hin & Hok).
  - by apply not_elem_of_nil in Hin.
  - destruct (attempt source type name packageRoot w) as [[c|msg] w'] eqn:E.
    + exists [], source, rest, c, w'. split_and!; [done | | done].
      intros s Hs. by apply not_elem_of_nil in Hs.
    + assert (fails w source) as Hf by (unfold failing; by rewrite E).
      destruct IH as (before & s & after & c & w'' & -> & Hb & Ha).
      { exists s0. split; [|done].
        by apply elem_of_cons in Hin as [-> | Hin]. }
      exists (source :: before), s, after, c, w''.
      split_and!; [done | | done].
      intros x Hx. apply elem_of_cons in Hx as [-> | Hx]; [done | by apply Hb].
Qed.

End Resolution.

(** * The cache manager *)

Section Cache.

Implicit Types (w : World) (source : Source) (type name : string)
  (p : path) (n : node).

Lemma writeFile_lookup now content p : ∀ n n',
  NodeFs.writeFile now p content n = Ok n' →
  NodeFs.lookup p n' = Some (File content now).
Proof.
  induction p as [|seg p IH]; intros n n' H.
  - destruct n; simpl in H; [|done]. by injection H as <-.
  - destruct n as [|m es]; [done |]. cbn [NodeFs.writeFile] in H.
    destruct (es !! seg) as [c|] eqn:Hc.
    + apply rbind_Ok in H as (c' & Hc' & [= <-]).
      cbn [NodeFs.lookup]. rewrite lookup_insert_eq. by eapply IH.
    + destruct p; [|done]. injection H as <-.
      cbn [NodeFs.lookup]. by rewrite lookup_insert_eq.
Qed.

Lemma getCachedFile_absent source type name ttl w :
  NodeFs.lookup (CacheManager.getCachePath w source type name) (fs w) = None →
  CacheManager.getCachedFile source type name ttl w = Ok None.
Proof.
  intros H. unfold CacheManager.getCachedFile, NodeFs.pathExists.
  rewrite H. rewrite bool_decide_false; [done |]. by intros [? ?].
Qed.

Lemma getCachedFile_file source type name ttl w content mtime :
  NodeFs.lookup (CacheManager.getCachePath w source type name) (fs w)
  = Some (File content mtime) →
  CacheManager.getCachedFile source type name ttl w
  = if bool_decide (clock w - mtime < default 3600000 ttl)
    then Ok (Some content) else Ok None.
Proof.
  intros H.
  unfold CacheManager.getCachedFile, NodeFs.pathExists,
    CacheManager.isCacheValid, NodeFs.stat, NodeFs.readFile.
  rewrite H. rewrite bool_decide_true by done. simpl.
  by case_bool_decide.
Qed.

Lemma setCachedFile_ok source type name content w w' :
  CacheManager.setCachedFile source type name content w = (Ok (), w') →
  NodeFs.lookup (CacheManager.getCachePath w source type name) (fs w')
  = Some (File content (clock w))
  ∧ clock w' = clock w ∧ homedir w' = homedir w ∧ net w' = net w.
Proof.
  unfold CacheManager.setCachedFile.
  destruct (NodeFs.ensureDir _ _ _) as [fs1|]; [|done].
  destruct (NodeFs.writeFile _ _ _ _) as [fs2|] eqn:Hw; [|done].
  intros [= <-]. split; [|done]. by eapply writeFile_lookup.
Qed.

Lemma getCachePath_homedir w w' source type name :
  homedir w' = homedir w →
  CacheManager.getCachePath w' source type name
  = CacheManager.getCachePath w source type name.
Proof. unfold CacheManager.getCachePath, getCacheDir. by intros ->. Qed.

End Cache.

(** * Strings and paths *)

Section Strings.

Implicit Types (s a b : string) (c : ascii) (p : path).

Lemma length_app a b :
  String.length (a +:+ b) = (String.length a + String.length b)%nat.
Proof. induction a as [|c a IH]; simpl; [done | by rewrite IH]. Qed.

Lemma startsWith_slash c s :
  JsString.startsWith "/" (String c s) = Ascii.eqb c "/".
Proof.
  cbn [JsString.startsWith]. rewrite Ascii.eqb_sym.
  by destruct (Ascii.eqb c "/").
Qed.

Lemma split_nonempty s : NodePath.split s ≠ [].
Proof.
  destruct s as [|c s]; simpl; [done |].
  destruct (Ascii.eqb c "/"); [done |]. by destruct (NodePath.split s).
Qed.

(** A string without [/] is a single piece. *)
Lemma split_no_slash s :
  JsString.includes "/" s = false → NodePath.split s = [s].
Proof.
  induction s as [|c s IH]; [done |].
  cbn [JsString.includes NodePath.split]. rewrite startsWith_slash.
  destruct (Ascii.eqb c "/"); [done |]. intros H. by rewrite (IH H).
Qed.

Lemma includes_slash_app a b :
  JsString.includes "/" a = false → JsString.includes "/" b = false →
  JsString.includes "/" (a +:+ b) = false.
Proof.
  induction a as [|c a IH]; [done |].
  change (String c a +:+ b) with (String c (a +:+ b)).
  cbn [JsString.includes]. rewrite !startsWith_slash.
  destruct (Ascii.eqb c "/"); [done | apply IH].
Qed.

Lemma includes_slash_ext type :
  JsString.includes "/" (getFileExtension type) = false.
Proof. unfold getFileExtension. by case_decide. Qed.

Lemma endsWith_app a b : JsString.endsWith b (a +:+ b) = true.
Proof.
  induction a as [|c a IH].
  - destruct b; simpl; [done |]. by rewrite Ascii.eqb_refl, String.eqb_refl.
  - change (String c a +:+ b) with (String c (a +:+ b)).
    cbn [JsString.endsWith]. rewrite IH. by destruct (String.eqb _ _).
Qed.

Lemma isTemplateFile_name type name :
  isTemplateFile (name +:+ getFileExtension type) = true.
Proof.
  unfold isTemplateFile, getFileExtension.
  case_decide; rewrite endsWith_app; [apply orb_true_r | done].
Qed.

Lemma length_ext type : (3 ≤ String.length (getFileExtension type))%nat.
Proof. unfold getFileExtension. case_decide; simpl; lia. Qed.

Lemma step_file p name type :
  NodePath.step p (name +:+ getFileExtension type)
  = p ++ [name +:+ getFileExtension type].
Proof.
  pose proof (length_ext type) as Hl.
  assert (3 ≤ String.length (name +:+ getFileExtension type))%nat as Hlen.
  { rewrite length_app. lia. }
  unfold NodePath.step.
  rewrite decide_False; [rewrite decide_False; [done |] |];
    [intros E | intros [E | E]]; rewrite E in Hlen; simpl in Hlen; lia.
Qed.

Lemma lastDot_ext type name :
  NodePath.lastDot (name +:+ getFileExtension type)
  = Some (String.length name).
Proof.
  induction name as [|c name IH].
  - unfold getFileExtension. by case_decide.
  - change (String c name +:+ ?b) with (String c (name +:+ b)).
    cbn [NodePath.lastDot String.length]. by rewrite IH.
Qed.

Lemma substring_app a b : String.substring 0 (String.length a) (a +:+ b) = a.
Proof.
  induction a as [|c a IH]; simpl; [by destruct b | by rewrite IH].
Qed.

(** [path.parse] gives back the name a template file was built from. *)
Lemma parseName_file type name :
  name ≠ "" →
  NodePath.parseName (name +:+ getFileExtension type) = name.
Proof.
  intros Hne. unfold NodePath.parseName. rewrite lastDot_ext.
  destruct name as [|c name]; [done |]. cbn [String.length].
  rewrite decide_False; [apply (substring_app (String c name)) |].
  intros E. apply (f_equal String.length) in E.
  pose proof (length_ext type).
  rewrite length_app in E. simpl in E. lia.
Qed.

(** The cache path of a name without separator lies directly in the
    directory that [listCachedTemplates] reads. *)
Lemma getCachePath_in_typeDir w source type name :
  JsString.includes "/" name = false →
  CacheManager.getCachePath w source type name
  = NodePath.join (getCacheDir w) [src_name source; pluralizeType type]
    ++ [name +:+ getFileExtension type].
Proof.
  intros Hn. unfold CacheManager.getCachePath, NodePath.join.
  change ([src_name source; pluralizeType type;
           name +:+ getFileExtension type])
    with ([src_name source; pluralizeType type]
          ++ [name +:+ getFileExtension type]).
  rewrite bind_app, foldl_app. simpl. rewrite app_nil_r.
  rewrite (split_no_slash (name +:+ getFileExtension type))
    by (apply includes_slash_app; [done | apply includes_slash_ext]).
  simpl. apply step_file.
Qed.

End Strings.

(** * Listing the cache *)

Section Listing.

Implicit Types (w : World) (source : Source) (type name : string)
  (p d : path) (n : node).

Lemma writeFile_entry now content f d : ∀ n n',
  NodeFs.writeFile now (d ++ [f]) content n = Ok n' →
  ∃ m es, NodeFs.lookup d n' = Some (Dir m es)
          ∧ es !! f = Some (File content now).
Proof.
  induction d as [|seg d IH]; intros n n' H.
  - destruct n as [|m es]; [done |]. simpl in H.
    destruct (es !! f) as [c|] eqn:Hc.
    + destruct c; [|done]. injection H as <-.
      eexists _, _. split; [done |]. by rewrite lookup_insert_eq.
    + injection H as <-.
      eexists _, _. split; [done |]. by rewrite lookup_insert_eq.
  - destruct n as [|m es]; [done |].
    change ((seg :: d) ++ [f]) with (seg :: (d ++ [f])) in H.
    cbn [NodeFs.writeFile] in H.
    destruct (es !! seg) as [c|] eqn:Hc.
    + apply rbind_Ok in H as (c' & Hc' & [= <-]).
      cbn [NodeFs.lookup]. rewrite lookup_insert_eq. by eapply IH.
    + by destruct d.
Qed.

Lemma listCachedTemplates_dir source type w m es :
  NodeFs.lookup (typeDir w source type) (fs w) = Some (Dir m es) →
  CacheManager.listCachedTemplates source type w
  = Ok (map NodePath.parseName
          (List.filter isTemplateFile (map_to_list es).*1)).
Proof.
  intros H. unfold CacheManager.listCachedTemplates, NodeFs.pathExists,
    NodeFs.readdir.
  fold (typeDir w source type). rewrite H.
  by rewrite bool_decide_true.
Qed.

Lemma listCachedTemplates_absent source type w :
  NodeFs.lookup (typeDir w source type) (fs w) = None →
  CacheManager.listCachedTemplates source type w = Ok [].
Proof.
  intros H. unfold CacheManager.listCachedTemplates, NodeFs.pathExists.
  fold (typeDir w source type). rewrite H.
  rewrite bool_decide_false; [done |]. by intros [? ?].
Qed.

Lemma elem_of_listing (es : gmap string node) x :
  x ∈ map NodePath.parseName (List.filter isTemplateFile (map_to_list es).*1)
  ↔ ∃ file, is_Some (es !! file) ∧ isTemplateFile file = true
            ∧ x = NodePath.parseName file.
Proof.
  rewrite list_elem_of_In, in_map_iff. split.
  - intros (file & <- & Hf). apply filter_In in Hf as [Hf Ht].
    exists file. split_and!; [|done..].
    apply list_elem_of_In, list_elem_of_fmap in Hf as ([k v] & -> & Hkv).
    apply elem_of_map_to_list in Hkv. by exists v.
  - intros (file & [v Hv] & Ht & ->). exists file. split; [done |].
    apply filter_In. split; [|done].
    apply list_elem_of_In, list_elem_of_fmap. exists (file, v).
    split; [done |]. by apply elem_of_map_to_list.
Qed.

End Listing.

(** * Raw URLs *)

Section RawUrl.

Implicit Types (s repo : string).

(** An occurrence of [.git] cannot begin in [s] and end in a [.git]
    that follows [s]. *)
Lemma git_no_overlap s :
  JsString.startsWith ".git" (s +:+ ".git") = true →
  s = "" ∨ JsString.startsWith ".git" s = true.
Proof.
  destruct s as [|c1 [|c2 [|c3 [|c4 s]]]]; [by left | ..]; intros H; right;
    simpl in *;
    repeat match type of H with
           | context [Ascii.eqb ?a ?b] =>
               destruct (Ascii.eqb a b) eqn:?; simpl in H
           end;
    done.
Qed.

Lemma replace_git_suffix repo :
  JsString.includes ".git" repo = false →
  JsString.replace ".git" "" (repo +:+ ".git") = repo.
Proof.
  induction repo as [|c repo IH]; [done |].
  intros H. cbn [JsString.includes] in H.
  destruct (JsString.startsWith ".git" (String c repo)) eqn:Hs; [done |].
  change (String c repo +:+ ".git") with (String c (repo +:+ ".git")).
  cbn [JsString.replace].
  destruct (JsString.startsWith ".git" (String c (repo +:+ ".git"))) eqn:Hs'.
  - apply (git_no_overlap (String c repo)) in Hs' as [? | ?]; congruence.
  - by rewrite IH.
Qed.

Lemma replace_git_absent repo :
  JsString.includes ".git" repo = false →
  JsString.replace ".git" "" repo = repo.
Proof.
  induction repo as [|c repo IH]; [done |].
  intros H. cbn [JsString.includes] in H. cbn [JsString.replace].
  destruct (JsString.startsWith ".git" (String c repo)); [done |].
  by rewrite IH.
Qed.

(** On a repository URL whose only [.git] is its suffix, and on one
    without [.git], [buildRawUrl] is the URL of the specification. *)
Lemma buildRawUrl_plain source type name repo :
  JsString.includes ".git" repo = false →
  src_url source = Some ("https://github.com/" +:+ repo +:+ ".git")
  ∨ src_url source = Some ("https://github.com/" +:+ repo) →
  GitHubFetcher.buildRawUrl source type name
  = Ok ("https://raw.githubusercontent.com/" +:+ repo +:+ "/"
        +:+ default "main" (src_branch source) +:+ "/"
        +:+ default "templates" (src_path source) +:+ "/"
        +:+ pluralizeType type +:+ "/" +:+ name +:+ getFileExtension type).
Proof.
  intros Hr [Hu | Hu]; unfold GitHubFetcher.buildRawUrl; rewrite Hu.
  - change (JsString.includes "github.com"
              ("https://github.com/" +:+ repo +:+ ".git")) with true.
    change (JsString.replace "https://github.com/" ""
              ("https://github.com/" +:+ repo +:+ ".git"))
      with (repo +:+ ".git").
    cbv iota. by rewrite replace_git_suffix.
  - change (JsString.includes "github.com" ("https://github.com/" +:+ repo))
      with true.
    change (JsString.replace "https://github.com/" ""
              ("https://github.com/" +:+ repo)) with repo.
    cbv iota. by rewrite replace_git_absent.
Qed.

End RawUrl.

(** * The claims *)

(** C1: if some source of the list can serve the template,
    [fetchTemplate] succeeds with the content of the first source, in the
    order of the list, whose [fetchFile] succeeds, paired with that source.
    Every source before it failed; the world is the one that fetch left,
    and the result is the same whatever sources follow it: the iteration
    stops there. *)
Theorem fetchTemplate_first_success
    (sources : list Source) (type name : string) (packageRoot : path)
    (w : World) :
  (∃ source, source ∈ sources
             ∧ is_ok (attempt source type name packageRoot w).1 = true) →
  ∃ before source after content w',
    sources = before ++ source :: after
    ∧ (∀ s, s ∈ before → is_ok (attempt s type name packageRoot w).1 = false)
    ∧ attempt source type name packageRoot w = (Ok content, w')
    ∧ fetchTemplate sources type name packageRoot w
      = (Ok (content, source), w')
    ∧ ∀ others,
        fetchTemplate (before ++ source :: others) type name packageRoot w
        = (Ok (content, source), w').
Proof.
  intros (s & Hin & Hok).
  destruct (first_success_split type name packageRoot sources w)
    as (before & source & after & content & w' & -> & Hb & Ha).
  { exists s. split; [done |]. unfold failing. by rewrite Hok. }
  exists before, source, after, content, w'.
  split_and!; [done | done | done | |];
    [| intros others]; by apply loop_stops.
Qed.

Lemma fetchTemplate_first_success_witness :
  ∃ before source after content w',
    [registrySource; acmeSource; localSource] = before ++ source :: after
    ∧ (∀ s, s ∈ before →
         is_ok (attempt s "component" "Button" packageDir
                  (emptyWorld acmeNet)).1 = false)
    ∧ attempt source "component" "Button" packageDir (emptyWorld acmeNet)
      = (Ok content, w')
    ∧ fetchTemplate [registrySource; acmeSource; localSource]
        "component" "Button" packageDir (emptyWorld acmeNet)
      = (Ok (content, source), w')
    ∧ ∀ others,
        fetchTemplate (before ++ source :: others)
          "component" "Button" packageDir (emptyWorld acmeNet)
        = (Ok (content, source), w').
Proof.
  apply (fetchTemplate_first_success
           [registrySource; acmeSource; localSource]).
  exists acmeSource. split; [| vm_compute; reflexivity].
  apply list_elem_of_further, list_elem_of_here.
Defined.

(** The button is taken from the second source, although the third has
    it as well. *)
Example first_source_wins_example :
  let w :=
    {| fs := Dir 0 {[ "opt" := Dir 0 {[ "ampackage" := Dir 0 {[ "templates" :=
               Dir 0 {[ "components" :=
                 Dir 0 {[ "Button.tsx" := File "local text" 0 ]} ]} ]} ]} ]};
       clock := 1000; net := acmeNet; homedir := ["home"; "dev"] |} in
  (fetchTemplate [registrySource; acmeSource; localSource]
     "component" "Button" packageDir w).1
  = Ok (buttonText, acmeSource)
  ∧ (fetchTemplate [registrySource; localSource; acmeSource]
       "component" "Button" packageDir w).1
    = Ok ("local text", localSource).
Proof. vm_compute. done. Qed.

(** C2: if the fetch fails for every source of the list, [fetchTemplate]
    fails with one error whose message is the heading followed by one entry
    per source, in order, joined by newlines; the entry of a source is its
    name, a colon and the message of its own failure. *)
Theorem fetchTemplate_aggregate_error
    (sources : list Source) (type name : string) (packageRoot : path)
    (w : World) :
  (∀ source, source ∈ sources →
     is_ok (attempt source type name packageRoot w).1 = false) →
  ∃ lines,
    fetchTemplate sources type name packageRoot w
    = (Throw ("Template not found in any source:" +:+ newline
              +:+ JsString.join newline lines), w)
    ∧ Forall2
        (λ source line,
           ∃ msg, (attempt source type name packageRoot w).1 = Throw msg
                  ∧ line = src_name source +:+ ": " +:+ msg)
        sources lines.
Proof.
  intros Hall. exists (map (error_line type name packageRoot w) sources).
  split.
  - unfold fetchTemplate. by rewrite loop_all_fail.
  - apply Forall2_fmap_r, Forall_Forall2_diag, Forall_forall.
    intros source Hs. specialize (Hall source Hs).
    unfold compose, error_line.
    destruct (attempt source type name packageRoot w) as [[c|msg] w'];
      [discriminate Hall | exists msg; split; reflexivity].
Qed.

Lemma fetchTemplate_aggregate_error_witness :
  ∃ lines,
    fetchTemplate [registrySource; acmeSource; localSource]
      "hook" "useAuth" packageDir (emptyWorld acmeNet)
    = (Throw ("Template not found in any source:" +:+ newline
              +:+ JsString.join newline lines), emptyWorld acmeNet)
    ∧ Forall2
        (λ source line,
           ∃ msg, (attempt source "hook" "useAuth" packageDir
                     (emptyWorld acmeNet)).1 = Throw msg
                  ∧ line = src_name source +:+ ": " +:+ msg)
        [registrySource; acmeSource; localSource] lines.
Proof.
  apply (fetchTemplate_aggregate_error
           [registrySource; acmeSource; localSource]).
  intros source Hs.
  repeat (apply elem_of_cons in Hs as [-> | Hs]; [vm_compute; reflexivity |]).
  by apply not_elem_of_nil in Hs.
Defined.

(** The three messages of the example above. *)
Example three_failures_example :
  (fetchTemplate [registrySource; acmeSource; localSource]
     "hook" "useAuth" packageDir (emptyWorld acmeNet)).1
  = Throw ("Template not found in any source:" +:+ newline
      +:+ "registry: NPM source fetching not yet implemented" +:+ newline
      +:+ "acme: Failed to fetch from GitHub: Template not found: hook/useAuth"
      +:+ newline
      +:+ "local: Template not found: hook/useAuth").
Proof. vm_compute. reflexivity. Qed.

(** * Fetchers behind the cache *)

Section BehindCache.

Implicit Types (w : World) (source : Source) (type name : string).

Lemma getCachedFile_dir source type name ttl w mtime es :
  NodeFs.lookup (CacheManager.getCachePath w source type name) (fs w)
  = Some (Dir mtime es) →
  CacheManager.getCachedFile source type name ttl w
  = if bool_decide (clock w - mtime < default 3600000 ttl)
    then Throw NodeFs.EISDIR else Ok None.
Proof.
  intros H.
  unfold CacheManager.getCachedFile, NodeFs.pathExists,
    CacheManager.isCacheValid, NodeFs.stat, NodeFs.readFile.
  rewrite H. rewrite bool_decide_true by done. simpl.
  by case_bool_decide.
Qed.

(** The first lines of both remote [fetchFile] methods. *)
Lemma consult_cache source type name (otherwise : M string) w :
  (reading (CacheManager.getCachedFile source type name (Some 3600000)) ≫=
     λ cached,
       match cached with
       | Some c => if JsString.truthy c then mret c else otherwise
       | None => otherwise
       end) w
  = through_cache 3600000 source type name otherwise w.
Proof.
  unfold through_cache. unfold_M.
  destruct (NodeFs.lookup _ (fs w)) as [[content mtime|mtime es]|] eqn:E.
  - rewrite (getCachedFile_file _ _ _ _ _ _ _ E). simpl.
    case_bool_decide; simpl; [|done]. by destruct (JsString.truthy content).
  - rewrite (getCachedFile_dir _ _ _ _ _ _ _ E). simpl.
    by case_bool_decide.
  - by rewrite (getCachedFile_absent _ _ _ _ _ E).
Qed.

Lemma listCachedTemplates_result source type w :
  (∃ l, CacheManager.listCachedTemplates source type w = Ok l)
  ∨ CacheManager.listCachedTemplates source type w = Throw NodeFs.ENOTDIR.
Proof.
  unfold CacheManager.listCachedTemplates, NodeFs.pathExists, NodeFs.readdir.
  destruct (NodeFs.lookup _ (fs w)) as [[c m|m es]|].
  - rewrite bool_decide_true by done. by right.
  - rewrite bool_decide_true by done. left. by eexists.
  - rewrite bool_decide_false by (by intros [? ?]). left. by eexists.
Qed.

End BehindCache.

(** C3, as the code has it: the registry fetcher consults the cache before
    it reaches its placeholder.  [fetchFile] fails with the
    not-yet-implemented error when the cache is bypassed and when the cache
    holds no fresh, non-empty file for the template; a fresh, non-empty
    file is returned.  [listTemplates] never fails with that error: it is
    the cache listing, or the empty list when the cache is bypassed. *)
Theorem NpmFetcher_stub_behind_cache
    (source : Source) (type name : string) (w : World) :
  NpmFetcher.fetchFile source type name false w = (Throw notImplemented, w)
  ∧ NpmFetcher.fetchFile source type name true w
    = match NodeFs.lookup (CacheManager.getCachePath w source type name)
              (fs w) with
      | Some (File content mtime) =>
          if bool_decide (clock w - mtime < 3600000)
             && JsString.truthy content
          then (Ok content, w) else (Throw notImplemented, w)
      | Some (Dir mtime _) =>
          if bool_decide (clock w - mtime < 3600000)
          then (Throw NodeFs.EISDIR, w) else (Throw notImplemented, w)
      | None => (Throw notImplemented, w)
      end
  ∧ NpmFetcher.listTemplates source type false w = (Ok [], w)
  ∧ NpmFetcher.listTemplates source type true w
    = (CacheManager.listCachedTemplates source type w, w)
  ∧ ∀ useCache,
      (NpmFetcher.listTemplates source type useCache w).1
      ≠ Throw notImplemented.
Proof.
  split_and!; try done.
  - apply (consult_cache source type name (throw notImplemented)).
  - intros [|]; [|done]. simpl.
    by destruct (listCachedTemplates_result source type w) as [[l ->] | ->].
Qed.

(** C3 fails as stated: with a fresh cache entry the registry fetcher
    returns content, and its listing is never the placeholder error. *)
Lemma NpmFetcher_not_unconditional :
  fetchFile (createFetcher registrySource packageDir) "component" "Button" true
    (cachedWorld "registry" buttonText 5000 offline)
  = (Ok buttonText, cachedWorld "registry" buttonText 5000 offline)
  ∧ listTemplates (createFetcher registrySource packageDir) "component" false
      (emptyWorld offline)
    = (Ok [], emptyWorld offline)
  ∧ listTemplates (createFetcher registrySource packageDir) "component" true
      (cachedWorld "registry" buttonText 5000 offline)
    = (Ok ["Button"], cachedWorld "registry" buttonText 5000 offline).
Proof. vm_compute. done. Qed.

(** C4: after [setCachedFile] has written [content], and whatever time
    the clock shows afterwards, [getCachedFile] returns exactly [content]
    when the age of the file (the clock minus the time of the write) is
    strictly below the time-to-live, and [null] (no error) otherwise; on
    any disk where the cache path is absent it returns [null] as well.
    An omitted time-to-live counts as 3600000. *)
Theorem cache_round_trip
    (source : Source) (type name content : string) (w w' : World) :
  CacheManager.setCachedFile source type name content w = (Ok (), w') →
  NodeFs.lookup (CacheManager.getCachePath w' source type name) (fs w')
  = Some (File content (clock w))
  ∧ (∀ now ttl,
       CacheManager.getCachedFile source type name ttl (set_clock now w')
       = Ok (if bool_decide (now - clock w < default 3600000 ttl)
             then Some content else None))
  ∧ (∀ w0 ttl,
       NodeFs.lookup (CacheManager.getCachePath w0 source type name) (fs w0)
       = None →
       CacheManager.getCachedFile source type name ttl w0 = Ok None).
Proof.
  intros Hset.
  destruct (setCachedFile_ok _ _ _ _ _ _ Hset) as (Hfile & _ & Hhome & _).
  rewrite (getCachePath_homedir w w') by done.
  split_and!; [done | | intros w0 ttl; apply getCachedFile_absent].
  intros now ttl.
  rewrite (getCachedFile_file source type name ttl (set_clock now w')
             content (clock w)).
  - simpl. by case_bool_decide.
  - by rewrite (getCachePath_homedir w (set_clock now w')).
Qed.

Lemma cache_round_trip_witness :
  ∃ w',
    CacheManager.setCachedFile acmeSource "component" "Button" buttonText
      (emptyWorld offline) = (Ok (), w')
    ∧ NodeFs.lookup
        (CacheManager.getCachePath w' acmeSource "component" "Button") (fs w')
      = Some (File buttonText 1000)
    ∧ (∀ now ttl,
         CacheManager.getCachedFile acmeSource "component" "Button" ttl
           (set_clock now w')
         = Ok (if bool_decide (now - 1000 < default 3600000 ttl)
               then Some buttonText else None))
    ∧ (∀ w0 ttl,
         NodeFs.lookup
           (CacheManager.getCachePath w0 acmeSource "component" "Button")
           (fs w0) = None →
         CacheManager.getCachedFile acmeSource "component" "Button" ttl w0
         = Ok None).
Proof.
  eexists. split; [vm_compute; reflexivity |].
  apply (cache_round_trip acmeSource "component" "Button" buttonText
           (emptyWorld offline)).
  vm_compute. reflexivity.
Defined.

(** The entry written at time 1000 is served one millisecond before it
    is an hour old and missed from then on. *)
Example entry_expires_after_an_hour_example :
  let w' := (CacheManager.setCachedFile acmeSource "hook" "useAuth" "hook"
               (emptyWorld offline)).2 in
  CacheManager.getCachedFile acmeSource "hook" "useAuth" (Some 3600000)
    (set_clock 3600999 w') = Ok (Some "hook")
  ∧ CacheManager.getCachedFile acmeSource "hook" "useAuth" (Some 3600000)
      (set_clock 3601000 w') = Ok None.
Proof. vm_compute. done. Qed.

(** C5, as the code has it: a remote fetch that consults the cache applies
    the fixed time-to-live of 3600000 ms, which is the default of the
    configured [cache.ttl]; [fetchFile] has no argument that overrides it,
    and what the [add] command fetches depends on the configured sources
    only, not on the configured [cache]. *)
Theorem fetch_ttl_is_fixed
    (env env' : ConfigEnv) (only : option string) (type name : string)
    (packageRoot : path) :
  getSources env = getSources env' →
  add_fetch only type name packageRoot env
  = add_fetch only type name packageRoot env'
  ∧ (∀ source w,
       GitHubFetcher.fetchFile source type name true w
       = match NodeFs.lookup (CacheManager.getCachePath w source type name)
                 (fs w) with
         | Some (File content mtime) =>
             if bool_decide (clock w - mtime < 3600000)
                && JsString.truthy content
             then (Ok content, w)
             else GitHubFetcher.download source type name w
         | Some (Dir mtime _) =>
             if bool_decide (clock w - mtime < 3600000)
             then (Throw NodeFs.EISDIR, w)
             else GitHubFetcher.download source type name w
         | None => GitHubFetcher.download source type name w
         end)
  ∧ (∀ source w,
       GitHubFetcher.fetchFile source type name false w
       = GitHubFetcher.download source type name w)
  ∧ ttl (cache defaultConfig) = 3600000.
Proof.
  intros Hs. split_and!; try done.
  - unfold add_fetch. unfold getSources in Hs. by rewrite Hs.
  - intros source w.
    apply (consult_cache source type name
             (GitHubFetcher.download source type name)).
Qed.

Lemma fetch_ttl_is_fixed_witness :
  add_fetch None "component" "Button" packageDir
    (homeEnv [acmeSource] {| enabled := true; ttl := 1000 |})
  = add_fetch None "component" "Button" packageDir
      (homeEnv [acmeSource] {| enabled := false; ttl := 86400000 |})
  ∧ (∀ source w,
       GitHubFetcher.fetchFile source "component" "Button" true w
       = match NodeFs.lookup
                 (CacheManager.getCachePath w source "component" "Button")
                 (fs w) with
         | Some (File content mtime) =>
             if bool_decide (clock w - mtime < 3600000)
                && JsString.truthy content
             then (Ok content, w)
             else GitHubFetcher.download source "component" "Button" w
         | Some (Dir mtime _) =>
             if bool_decide (clock w - mtime < 3600000)
             then (Throw NodeFs.EISDIR, w)
             else GitHubFetcher.download source "component" "Button" w
         | None => GitHubFetcher.download source "component" "Button" w
         end)
  ∧ (∀ source w,
       GitHubFetcher.fetchFile source "component" "Button" false w
       = GitHubFetcher.download source "component" "Button" w)
  ∧ ttl (cache defaultConfig) = 3600000.
Proof.
  apply (fetch_ttl_is_fixed
           (homeEnv [acmeSource] {| enabled := true; ttl := 1000 |})
           (homeEnv [acmeSource] {| enabled := false; ttl := 86400000 |})).
  vm_compute. reflexivity.
Defined.

(** C5 fails as stated: with a configured time-to-live of one second, an
    entry that is five seconds old is still served from the cache, although
    the network has a different text for it. *)
Lemma configured_ttl_ignored :
  let env := homeEnv [acmeSource] {| enabled := true; ttl := 1000 |} in
  let w := cachedWorld "acme" "stale text" 5000 acmeNet in
  ttl (cache (loadConfig env).1) = 1000
  ∧ NodeFs.lookup (CacheManager.getCachePath w acmeSource "component" "Button")
      (fs w) = Some (File "stale text" 0)
  ∧ ttl (cache (loadConfig env).1) ≤ clock w - 0
  ∧ add_fetch None "component" "Button" packageDir env w
    = (Ok ("stale text", acmeSource), w)
  ∧ GitHubFetcher.fetchFile acmeSource "component" "Button" false w
    = (Ok buttonText,
       (CacheManager.setCachedFile acmeSource "component" "Button"
          buttonText w).2).
Proof. vm_compute. split_and!; done. Qed.

(** C6: on a configuration whose source names are unique, [addSource]
    puts the source it constructs in the place of the entry that carries
    the name, at the position of that entry, or at the end of the list when
    there is none; afterwards the names are still unique and exactly one
    source carries the name.  Adding the same name again replaces that one
    entry, at the position it has, by the second source. *)
Theorem addSource_replace_or_append
    (env : ConfigEnv) (name type url : string) (options : SourceOptions) :
  NoDup (src_name <$> getSources env) →
  writable env = true →
  let source := newSource name type url options in
  ∃ env',
    addSource name type url options env = (Ok source, env')
    ∧ persisted env'
      = Parsed {| doc_sources := Some (getSources env');
                  doc_cache := Some (cache (loadConfig env).1) |}
    ∧ (∀ i old, getSources env !! i = Some old → src_name old = name →
         getSources env' = <[i := source]> (getSources env))
    ∧ ((∀ s, s ∈ getSources env → src_name s ≠ name) →
         getSources env' = getSources env ++ [source])
    ∧ NoDup (src_name <$> getSources env')
    ∧ length (List.filter (named name) (getSources env')) = 1%nat
    ∧ ∀ type2 url2 options2,
        let source2 := newSource name type2 url2 options2 in
        ∃ env'' i,
          addSource name type2 url2 options2 env' = (Ok source2, env'')
          ∧ getSources env' !! i = Some source
          ∧ getSources env'' = <[i := source2]> (getSources env')
          ∧ getSources env'' !! i = Some source2
          ∧ length (List.filter (named name) (getSources env'')) = 1%nat.
Proof.
  intros Hnd Hw source.
  destruct (addSource_unique env name type url options Hnd Hw)
    as (env' & Hrun & Hw' & Hp & Hrepl & Happ & Hnd' & Hone & i & Hi).
  exists env'. split_and!; try done.
  intros type2 url2 options2 source2.
  destruct (addSource_unique env' name type2 url2 options2 Hnd' Hw')
    as (env'' & Hrun2 & _ & _ & Hrepl2 & _ & _ & Hone2 & _).
  exists env'', i. split_and!; try done.
  - by apply (Hrepl2 i source).
  - rewrite (Hrepl2 i source) by done.
    apply list_lookup_insert_eq. by eapply lookup_lt_Some.
Qed.

Lemma addSource_replace_or_append_witness :
  ∃ env',
    addSource "x" "local" "/a" noOptions freshEnv
    = (Ok (newSource "x" "local" "/a" noOptions), env')
    ∧ getSources env' = [localSource; newSource "x" "local" "/a" noOptions]
    ∧ ∃ env'',
        addSource "x" "local" "/b" noOptions env'
        = (Ok (newSource "x" "local" "/b" noOptions), env'')
        ∧ getSources env''
          = [localSource; newSource "x" "local" "/b" noOptions].
Proof.
  destruct (addSource_replace_or_append freshEnv "x" "local" "/a" noOptions)
    as (env' & Hrun & _ & _ & Happ & _ & _ & Hagain).
  - vm_compute. apply NoDup_singleton.
  - reflexivity.
  - exists env'. split; [exact Hrun |].
    assert (getSources env'
            = [localSource; newSource "x" "local" "/a" noOptions]) as Hs.
    { apply Happ. intros s Hs.
      apply list_elem_of_singleton in Hs. by subst s. }
    split; [exact Hs |].
    destruct (Hagain "local" "/b" noOptions)
      as (env'' & i & Hrun2 & Hi & Hrepl & _).
    exists env''. split; [exact Hrun2 |].
    rewrite Hrepl, Hs. rewrite Hs in Hi.
    destruct i as [|[|i]]; [discriminate Hi | reflexivity | discriminate Hi].
Defined.

(** The scenario of the specification, run on a machine without any
    configuration file. *)
Example same_name_twice_example :
  let env1 := (addSource "x" "local" "/a" noOptions freshEnv).2 in
  let env2 := (addSource "x" "local" "/b" noOptions env1).2 in
  getSources env1 = [localSource; newSource "x" "local" "/a" noOptions]
  ∧ getSources env2 = [localSource; newSource "x" "local" "/b" noOptions].
Proof. vm_compute. done. Qed.

(** C7: when no configured source carries the name, [removeSource] fails
    with the not-found error and nothing is written: the configuration
    files, and so the persisted document, are as before. *)
Theorem removeSource_not_found (env : ConfigEnv) (name : string) :
  (∀ s, s ∈ getSources env → src_name s ≠ name) →
  ∃ env',
    removeSource name env
    = (Throw ("Source '" +:+ name +:+ "' not found"), env')
    ∧ env' = env
    ∧ persisted env' = persisted env.
Proof.
  intros H. exists env. by rewrite removeSource_absent.
Qed.

Lemma removeSource_not_found_witness :
  ∃ env',
    removeSource "missing" (homeEnv [localSource; acmeSource]
                              {| enabled := true; ttl := 3600000 |})
    = (Throw "Source 'missing' not found", env')
    ∧ env' = homeEnv [localSource; acmeSource]
               {| enabled := true; ttl := 3600000 |}
    ∧ persisted env'
      = persisted (homeEnv [localSource; acmeSource]
                     {| enabled := true; ttl := 3600000 |}).
Proof.
  apply (removeSource_not_found
           (homeEnv [localSource; acmeSource]
              {| enabled := true; ttl := 3600000 |}) "missing").
  intros s Hs.
  repeat (apply elem_of_cons in Hs as [-> | Hs]; [vm_compute; discriminate |]).
  by apply not_elem_of_nil in Hs.
Defined.

(** C10: when some configured source carries the name, [removeSource]
    saves the document without every entry of that name, however many
    there are, keeps the other entries in their order, and returns
    [true]. *)
Theorem removeSource_removes_all (env : ConfigEnv) (name : string) :
  (∃ s, s ∈ getSources env ∧ src_name s = name) →
  writable env = true →
  ∃ env',
    removeSource name env = (Ok true, env')
    ∧ persisted env'
      = Parsed {| doc_sources := Some (getSources env');
                  doc_cache := Some (cache (loadConfig env).1) |}
    ∧ getSources env'
      = List.filter (λ s, negb (named name s)) (getSources env)
    ∧ (∀ s, s ∈ getSources env' ↔ s ∈ getSources env ∧ src_name s ≠ name)
    ∧ sublist (getSources env') (getSources env).
Proof.
  intros (s & Hin & Hn) Hw. unfold removeSource, getSources in *.
  destruct (loadConfig env) as [config sharing] eqn:E. simpl in *.
  rewrite decide_False by by eapply filter_drops_some.
  set (kept := List.filter _ (sources config)).
  set (env1 := match sharing with IsDefault => _ | _ => env end).
  assert (writable env1 = true) as Hw1 by (by destruct sharing).
  destruct (saveConfig_ok {| sources := kept; cache := cache config |}
              env1 Hw1) as (env' & -> & Hp & _ & _).
  exists env'.
  rewrite (getSources_persisted _ _ _ Hp). simpl.
  split_and!; try done.
  - intros x. unfold kept. rewrite !list_elem_of_In, filter_In.
    unfold named. rewrite negb_true_iff, bool_decide_eq_false. done.
  - unfold kept. clear. induction (sources config) as [|a l IH]; simpl.
    + constructor.
    + destruct (negb (named name a)); by constructor.
Qed.

Lemma removeSource_removes_all_witness :
  let twice :=
    [localSource; newSource "dup" "local" "/a" noOptions; acmeSource;
     newSource "dup" "github" "https://github.com/o/r" noOptions] in
  ∃ env',
    removeSource "dup" (homeEnv twice {| enabled := true; ttl := 3600000 |})
    = (Ok true, env')
    ∧ getSources env' = [localSource; acmeSource].
Proof.
  intros twice.
  destruct (removeSource_removes_all
              (homeEnv twice {| enabled := true; ttl := 3600000 |}) "dup")
    as (env' & Hrun & _ & Hs & _).
  - exists (newSource "dup" "local" "/a" noOptions).
    split; [| reflexivity].
    apply list_elem_of_further, list_elem_of_here.
  - reflexivity.
  - exists env'. split; [exact Hrun | exact Hs].
Defined.

(** C8: the code evaluated where it leaves the claim.  In the repository
    URL [https://github.com/user/my.github.io.git] the first [.git] is the
    one of [.github], and that one is removed; the suffix stays.  On URLs
    whose only [.git] is the suffix the code builds the URL of the claim
    ([buildRawUrl_plain]). *)
Theorem buildRawUrl_removes_first_git :
  GitHubFetcher.buildRawUrl pagesSource "component" "Button"
  = Ok "https://raw.githubusercontent.com/user/myhub.io.git/main/templates/components/Button.tsx"
  ∧ GitHubFetcher.buildRawUrl pagesSource "component" "Button"
    ≠ Ok "https://raw.githubusercontent.com/user/my.github.io/main/templates/components/Button.tsx".
Proof. split; [vm_compute; reflexivity | vm_compute; discriminate]. Qed.

(** C9, as the code has it: for a name that is not empty and has no path
    separator, the listing of the cache contains the name once
    [setCachedFile] has stored it, for every kind.  In general the listing
    is made of the entries of the cache directory of the source and kind
    that end in [.ts] or [.tsx], each without its extension, and it is
    empty when that directory is absent. *)
Theorem cache_set_list_coherence
    (source : Source) (type name content : string) (w w' : World) :
  name ≠ "" →
  JsString.includes "/" name = false →
  CacheManager.setCachedFile source type name content w = (Ok (), w') →
  (∃ l, CacheManager.listCachedTemplates source type w' = Ok l ∧ name ∈ l)
  ∧ (∀ w0 mtime es,
       NodeFs.lookup (typeDir w0 source type) (fs w0) = Some (Dir mtime es) →
       ∃ l, CacheManager.listCachedTemplates source type w0 = Ok l
            ∧ ∀ x, x ∈ l ↔
                ∃ file, is_Some (es !! file)
                        ∧ (JsString.endsWith ".ts" file = true
                           ∨ JsString.endsWith ".tsx" file = true)
                        ∧ x = NodePath.parseName file)
  ∧ (∀ stem, stem ≠ "" →
       NodePath.parseName (stem +:+ ".ts") = stem
       ∧ NodePath.parseName (stem +:+ ".tsx") = stem)
  ∧ (∀ w0, NodeFs.lookup (typeDir w0 source type) (fs w0) = None →
       CacheManager.listCachedTemplates source type w0 = Ok []).
Proof.
  intros Hne Hsep Hset. split_and!.
  - unfold CacheManager.setCachedFile in Hset.
    destruct (NodeFs.ensureDir _ _ _) as [fs1|]; [|done].
    destruct (NodeFs.writeFile _ _ _ _) as [fs2|] eqn:Hw; [|done].
    injection Hset as <-.
    rewrite getCachePath_in_typeDir in Hw by done.
    apply writeFile_entry in Hw as (m & es & Hdir & Hfile).
    rewrite (listCachedTemplates_dir source type (set_fs fs2 w) m es Hdir).
    eexists. split; [done |]. apply elem_of_listing.
    exists (name +:+ getFileExtension type). split_and!.
    + by eexists.
    + apply isTemplateFile_name.
    + by rewrite parseName_file.
  - intros w0 mtime es Hdir.
    rewrite (listCachedTemplates_dir source type w0 mtime es Hdir).
    eexists. split; [done |]. intros x. rewrite elem_of_listing.
    unfold isTemplateFile. by setoid_rewrite orb_true_iff.
  - intros stem Hs. split.
    + apply (parseName_file "hook" stem Hs).
    + apply (parseName_file "component" stem Hs).
  - intros w0. apply listCachedTemplates_absent.
Qed.

Lemma cache_set_list_coherence_witness :
  ∃ w',
    CacheManager.setCachedFile acmeSource "util" "formatDate" "text"
      (cachedWorld "acme" buttonText 5000 offline) = (Ok (), w')
    ∧ ∃ l, CacheManager.listCachedTemplates acmeSource "util" w' = Ok l
           ∧ "formatDate" ∈ l.
Proof.
  eexists. split; [vm_compute; reflexivity |].
  eapply (cache_set_list_coherence acmeSource "util" "formatDate" "text"
            (cachedWorld "acme" buttonText 5000 offline)).
  - discriminate.
  - reflexivity.
  - vm_compute. reflexivity.
Defined.

(** C9 fails as stated: a name with a path separator is stored in a
    subdirectory, which the listing does not enter, and the file of the
    empty name is listed under the name [.ts]. *)
Lemma nested_name_not_listed :
  let stored :=
    CacheManager.setCachedFile acmeSource "component" "ui/Button" buttonText
      (emptyWorld offline) in
  let unnamed :=
    CacheManager.setCachedFile acmeSource "hook" "" "text"
      (emptyWorld offline) in
  stored.1 = Ok ()
  ∧ CacheManager.listCachedTemplates acmeSource "component" stored.2 = Ok []
  ∧ unnamed.1 = Ok ()
  ∧ CacheManager.listCachedTemplates acmeSource "hook" unnamed.2 = Ok [".ts"].
Proof. vm_compute. done. Qed.

(** * The configuration store, continued *)

Section ConfigMore.

Implicit Types (env : ConfigEnv) (name : string) (l : list Source).

Lemma find_named_insert name n l i source :
  findIndex name l = Some i → src_name source = name →
  List.find (named n) (<[i := source]> l)
  = if decide (n = name) then Some source else List.find (named n) l.
Proof.
  intros Hi Hs. revert i Hi. induction l as [|a l IH]; intros i; [done |].
  cbn [findIndex]. unfold named at 1. case_bool_decide as Ha.
  - intros [= <-]. simpl. unfold named.
    repeat (case_bool_decide || case_decide); congruence.
  - destruct (findIndex name l) as [j|] eqn:E; [|done].
    intros [= <-]. simpl. rewrite (IH j eq_refl). unfold named.
    repeat (case_bool_decide || case_decide); congruence.
Qed.

Lemma find_named_app name n l source :
  findIndex name l = None → src_name source = name →
  List.find (named n) (l ++ [source])
  = if decide (n = name) then Some source else List.find (named n) l.
Proof.
  intros Hi Hs. induction l as [|a l IH].
  - simpl. unfold named. rewrite Hs.
    case_decide; [by rewrite bool_decide_true
                 | by rewrite bool_decide_false by congruence].
  - cbn [findIndex] in Hi. unfold named at 1 in Hi.
    case_bool_decide as Ha; [done |].
    destruct (findIndex name l); [done |].
    cbn [app List.find]. rewrite IH by done.
    unfold named at 1 3. case_bool_decide as Hn; [|done].
    by rewrite decide_False by congruence.
Qed.

Lemma find_named_filter name n l :
  List.find (named n) (List.filter (λ s, negb (named name s)) l)
  = if decide (n = name) then None else List.find (named n) l.
Proof.
  induction l as [|a l IH]; [by case_decide |].
  simpl. destruct (named name a) eqn:Ha; simpl; rewrite IH;
    unfold named in *;
    repeat (case_bool_decide || case_decide); congruence.
Qed.

Lemma filter_app_new name l source :
  (∀ s, s ∈ l → src_name s ≠ name) → src_name source = name →
  List.filter (λ s, negb (named name s)) (l ++ [source]) = l.
Proof.
  intros Hl Hs. rewrite List.filter_app, filter_keep_all by done.
  simpl. unfold named. rewrite bool_decide_true by done. simpl.
  apply app_nil_r.
Qed.

Lemma findIndex_insert_same name l i source :
  findIndex name l = Some i → src_name source = name →
  findIndex name (<[i := source]> l) = Some i.
Proof.
  intros Hi Hs. revert i Hi. induction l as [|a l IH]; intros i; [done |].
  cbn [findIndex]. unfold named at 1. case_bool_decide as Ha.
  - intros [= <-]. simpl. unfold named. by rewrite bool_decide_true.
  - destruct (findIndex name l) as [j|] eqn:E; [|done].
    intros [= <-]. simpl. unfold named at 1.
    rewrite bool_decide_false by done. by rewrite (IH j eq_refl).
Qed.

Lemma findIndex_app_new name l source :
  findIndex name l = None → src_name source = name →
  findIndex name (l ++ [source]) = Some (length l).
Proof.
  intros Hi Hs. induction l as [|a l IH].
  - simpl. unfold named. by rewrite bool_decide_true.
  - cbn [findIndex] in Hi. unfold named at 1 in Hi.
    case_bool_decide as Ha; [done |].
    destruct (findIndex name l); [done |].
    cbn [app findIndex length]. unfold named at 1.
    rewrite bool_decide_false by done. by rewrite IH.
Qed.

Lemma filter_length_le {A} (f : A → bool) (l : list A) :
  (length (List.filter f l) ≤ length l)%nat.
Proof. induction l as [|a l IH]; simpl; [lia |]. destruct (f a); simpl; lia. Qed.

Lemma filter_length_eq {A} (f : A → bool) (l : list A) :
  length (List.filter f l) = length l → List.filter f l = l.
Proof.
  induction l as [|a l IH]; simpl; [done |].
  destruct (f a); simpl; intros H.
  - f_equal. apply IH. lia.
  - pose proof (filter_length_le f l). lia.
Qed.

(** *** What a save leaves alone *)

Lemma saveConfig_frame config env :
  let env' := (saveConfig config env).2 in
  getConfigPath env' = getConfigPath env
  ∧ file_at (otherLocation (getConfigPath env)) env'
    = file_at (otherLocation (getConfigPath env)) env
  ∧ defaults env' = defaults env
  ∧ writable env' = writable env.
Proof.
  unfold saveConfig, getConfigPath.
  destruct env as [cf hf [|] df]; destruct cf; done.
Qed.

Lemma set_default_sources_frame l env :
  getConfigPath (set_default_sources l env) = getConfigPath env
  ∧ cwdFile (set_default_sources l env) = cwdFile env
  ∧ homeFile (set_default_sources l env) = homeFile env
  ∧ writable (set_default_sources l env) = writable env
  ∧ cache (defaults (set_default_sources l env)) = cache (defaults env).
Proof. done. Qed.

Lemma loadConfig_cache_frame env env' :
  cwdFile env' = cwdFile env → homeFile env' = homeFile env →
  cache (defaults env') = cache (defaults env) →
  cache (loadConfig env').1 = cache (loadConfig env).1.
Proof.
  destruct env as [cf hf wr df], env' as [cf' hf' wr' df']. simpl.
  intros -> -> Hc. unfold loadConfig, getConfigPath. simpl.
  destruct cf as [| |[ss [cc|]]]; destruct hf as [| |[ss' [cc'|]]];
    simpl; by rewrite ?Hc.
Qed.

(** The result of [removeSource] when the file can be written. *)
Lemma removeSource_run env name :
  writable env = true →
  let kept := List.filter (λ s, negb (named name s)) (getSources env) in
  ∃ env',
    removeSource name env
    = (if decide (length kept = length (getSources env))
       then Throw ("Source '" +:+ name +:+ "' not found") else Ok true,
       env')
    ∧ getSources env' = kept
    ∧ writable env' = true
    ∧ cache (loadConfig env').1 = cache (loadConfig env).1.
Proof.
  intros Hw kept. unfold removeSource, getSources in *.
  destruct (loadConfig env) as [config sharing] eqn:E. simpl in *.
  fold kept. case_decide as Hlen.
  - assert (kept = sources config) as Hk by by apply filter_length_eq.
    eexists. split; [done |]. rewrite Hk.
    assert ((match sharing with
             | IsDefault => set_default_sources (sources config) env
             | _ => env
             end) = env) as ->.
    { destruct sharing; try done.
      assert (config = defaults env) as ->;
        [|apply set_default_sources_same].
      unfold loadConfig in E.
      destruct (file_at _ env) as [| |doc]; try by inversion E.
      destruct (doc_sources doc); by inversion E. }
    by rewrite E.
  - set (env1 := match sharing with IsDefault => _ | _ => env end).
    assert (writable env1 = true) as Hw1 by (by destruct sharing).
    destruct (saveConfig_ok {| sources := kept; cache := cache config |}
                env1 Hw1) as (env' & -> & Hp & Hw' & _).
    exists env'. rewrite (getSources_persisted _ _ _ Hp). done.
Qed.

End ConfigMore.

(** X1: once [addSource] has saved, [getSource] finds the new source under
    its name and finds under every other name what it found before. *)
Theorem getSource_after_addSource
    (env : ConfigEnv) (name type url : string) (options : SourceOptions)
    (n : string) :
  writable env = true →
  getSource n (addSource name type url options env).2
  = if decide (n = name) then Some (newSource name type url options)
    else getSource n env.
Proof.
  intros Hw.
  destruct (addSource_spec env name type url options Hw)
    as (env' & Hrun & _ & Hs & _).
  rewrite Hrun. unfold getSource, getSources in *. cbn [snd]. rewrite Hs.
  destruct (findIndex name (sources (loadConfig env).1)) as [i|] eqn:E.
  - by apply find_named_insert.
  - by apply find_named_app.
Qed.

Lemma getSource_after_addSource_witness :
  getSource "acme"
    (addSource "acme" "github" "https://github.com/acme/ui.git" noOptions
       freshEnv).2
  = Some (newSource "acme" "github" "https://github.com/acme/ui.git" noOptions)
  ∧ getSource "local"
      (addSource "acme" "github" "https://github.com/acme/ui.git" noOptions
         freshEnv).2
    = Some localSource.
Proof.
  split.
  - rewrite (getSource_after_addSource freshEnv) by reflexivity.
    reflexivity.
  - rewrite (getSource_after_addSource freshEnv) by reflexivity.
    reflexivity.
Defined.

(** X2: after [removeSource], whether it removed something or failed with
    not-found, [getSource] finds nothing under the name and finds under
    every other name what it found before. *)
Theorem getSource_after_removeSource
    (env : ConfigEnv) (name n : string) :
  writable env = true →
  getSource n (removeSource name env).2
  = if decide (n = name) then None else getSource n env.
Proof.
  intros Hw.
  destruct (removeSource_run env name Hw) as (env' & Hrun & Hs & _).
  rewrite Hrun. unfold getSource, getSources in *. cbn [snd]. rewrite Hs.
  apply find_named_filter.
Qed.

Lemma getSource_after_removeSource_witness :
  getSource "acme"
    (removeSource "acme"
       (homeEnv [localSource; acmeSource] {| enabled := true; ttl := 5 |})).2
  = None
  ∧ getSource "local"
      (removeSource "acme"
         (homeEnv [localSource; acmeSource] {| enabled := true; ttl := 5 |})).2
    = Some localSource.
Proof.
  split.
  - rewrite (getSource_after_removeSource
               (homeEnv [localSource; acmeSource]
                  {| enabled := true; ttl := 5 |})) by reflexivity.
    reflexivity.
  - rewrite (getSource_after_removeSource
               (homeEnv [localSource; acmeSource]
                  {| enabled := true; ttl := 5 |})) by reflexivity.
    reflexivity.
Defined.

(** X3: adding a source under a name no configured source carries and
    removing it again gives back the list of sources there was, and the
    removal reports success. *)
Theorem addSource_then_removeSource
    (env : ConfigEnv) (name type url : string) (options : SourceOptions) :
  writable env = true →
  (∀ s, s ∈ getSources env → src_name s ≠ name) →
  let added := (addSource name type url options env).2 in
  (removeSource name added).1 = Ok true
  ∧ getSources (removeSource name added).2 = getSources env.
Proof.
  intros Hw Hnew added.
  destruct (addSource_spec env name type url options Hw)
    as (env' & Hrun & _ & Hs & Hw').
  subst added. rewrite Hrun. cbn [snd].
  rewrite (proj2 (findIndex_None name (getSources env)) Hnew) in Hs.
  destruct (removeSource_run env' name Hw') as (env'' & Hrun' & Hs' & _).
  rewrite Hrun'. cbn [fst snd]. rewrite Hs', Hs.
  rewrite filter_app_new by done. rewrite List.length_app. simpl.
  split; [|done]. by rewrite decide_False by lia.
Qed.

Lemma addSource_then_removeSource_witness :
  (removeSource "x" (addSource "x" "local" "/a" noOptions freshEnv).2).1
  = Ok true
  ∧ getSources
      (removeSource "x" (addSource "x" "local" "/a" noOptions freshEnv).2).2
    = getSources freshEnv.
Proof.
  apply (addSource_then_removeSource freshEnv "x" "local" "/a" noOptions).
  - reflexivity.
  - intros s Hs. apply list_elem_of_singleton in Hs. by subst s.
Defined.

(** X4: [addSource] is idempotent: the same call a second time leaves the
    list of sources, and the document on disk, as the first call left
    them. *)
Theorem addSource_idempotent
    (env : ConfigEnv) (name type url : string) (options : SourceOptions) :
  writable env = true →
  let once := (addSource name type url options env).2 in
  let twice := (addSource name type url options once).2 in
  getSources twice = getSources once ∧ persisted twice = persisted once.
Proof.
  intros Hw once twice.
  destruct (addSource_spec env name type url options Hw)
    as (env' & Hrun & Hp & Hs & Hw').
  destruct (addSource_spec env' name type url options Hw')
    as (env'' & Hrun' & Hp' & Hs' & _).
  subst twice once. rewrite Hrun. cbn [snd]. rewrite Hrun'. cbn [snd].
  fold (newSource name type url options) in *.
  set (source := newSource name type url options) in *.
  assert (findIndex name (getSources env') = Some
            (default (length (getSources env))
               (findIndex name (getSources env)))
          ∧ getSources env' !! default (length (getSources env))
               (findIndex name (getSources env)) = Some source)
    as [Hi Hat].
  { rewrite Hs. destruct (findIndex name (getSources env)) as [i|] eqn:E.
    - split; [by apply findIndex_insert_same |]. simpl.
      apply findIndex_Some in E as (old & Hold & _).
      apply list_lookup_insert_eq. by eapply lookup_lt_Some.
    - split; [by apply findIndex_app_new |]. simpl.
      by rewrite lookup_app_r, Nat.sub_diag by lia. }
  rewrite Hi in Hs', Hp'.
  assert (getSources env'' = getSources env') as Heq.
  { rewrite Hs'. by apply list_insert_id. }
  split; [done |]. rewrite Hp', Hp.
  rewrite list_insert_id by done. rewrite <- Hs.
  by rewrite (getSources_persisted _ _ _ Hp).
Qed.

Lemma addSource_idempotent_witness :
  let once := (addSource "x" "local" "/a" noOptions freshEnv).2 in
  let twice := (addSource "x" "local" "/a" noOptions once).2 in
  getSources twice = getSources once ∧ persisted twice = persisted once.
Proof.
  apply (addSource_idempotent freshEnv "x" "local" "/a" noOptions).
  reflexivity.
Defined.

(** X5: what [saveConfig] has written, [loadConfig] reads back: after a
    successful save the loaded configuration is the saved one, sources and
    cache settings alike, the file written is the one [getConfigPath]
    pointed at, and the other configuration file is as before. *)
Theorem saveConfig_then_loadConfig (config : Config) (env : ConfigEnv) :
  writable env = true →
  let saved := saveConfig config env in
  saved.1 = Ok (getConfigPath env)
  ∧ loadConfig saved.2 = (config, Fresh)
  ∧ getConfigPath saved.2 = getConfigPath env
  ∧ file_at (otherLocation (getConfigPath env)) saved.2
    = file_at (otherLocation (getConfigPath env)) env.
Proof.
  intros Hw saved.
  destruct (saveConfig_ok config env Hw) as (env' & Hrun & Hp & _).
  pose proof (saveConfig_frame config env) as (Hpath & Hother & _).
  subst saved. split_and!; try done.
  - by rewrite Hrun.
  - rewrite Hrun. cbn [snd]. rewrite (getSources_persisted _ _ _ Hp).
    by destruct config.
Qed.

Lemma saveConfig_then_loadConfig_witness :
  let config := {| sources := [acmeSource];
                   cache := {| enabled := false; ttl := 60000 |} |} in
  let env := {| cwdFile := Unparsable;
                homeFile := Parsed {| doc_sources := Some [localSource];
                                      doc_cache := None |};
                writable := true; defaults := defaultConfig |} in
  (saveConfig config env).1 = Ok InCwd
  ∧ loadConfig (saveConfig config env).2 = (config, Fresh)
  ∧ getConfigPath (saveConfig config env).2 = InCwd
  ∧ homeFile (saveConfig config env).2 = homeFile env.
Proof.
  intros config env.
  apply (saveConfig_then_loadConfig config env). reflexivity.
Defined.

(** X6: [addSource] and [removeSource] write at most the configuration
    file [getConfigPath] points at: whatever their outcome, the other file
    is as before, the same file stays the one in force, and the cache
    settings a later [loadConfig] returns are unchanged. *)
Theorem config_updates_touch_one_file
    (env : ConfigEnv) (name type url : string) (options : SourceOptions) :
  let added := (addSource name type url options env).2 in
  let removed := (removeSource name env).2 in
  (getConfigPath added = getConfigPath env
   ∧ file_at (otherLocation (getConfigPath env)) added
     = file_at (otherLocation (getConfigPath env)) env
   ∧ cache (loadConfig added).1 = cache (loadConfig env).1)
  ∧ (getConfigPath removed = getConfigPath env
     ∧ file_at (otherLocation (getConfigPath env)) removed
       = file_at (otherLocation (getConfigPath env)) env
     ∧ cache (loadConfig removed).1 = cache (loadConfig env).1).
Proof.
  intros added removed. subst added removed.
  unfold addSource, removeSource.
  destruct env as [cf hf wr df].
  split.
  - destruct cf as [| |[[ss|] [cc|]]]; destruct hf as [| |[[ss'|] [cc'|]]];
      destruct wr; done.
  - destruct cf as [| |[[ss|] [cc|]]]; destruct hf as [| |[[ss'|] [cc'|]]];
      destruct wr; simpl; repeat case_decide; done.
Qed.

(** X7: [loadConfig] hands out the module-level [defaultConfig] itself
    (or its [sources] array) when the configuration file lists no sources,
    and [addSource] updates that array in place before it saves.  So when
    the save is refused, [addSource] fails and no file changes, yet in the
    same process [getSource] already finds the new source. *)
Theorem addSource_refused_save_still_visible
    (env : ConfigEnv) (name type url : string) (options : SourceOptions) :
  writable env = false →
  (loadConfig env).2 ≠ Fresh →
  let result := addSource name type url options env in
  is_ok result.1 = false
  ∧ cwdFile result.2 = cwdFile env
  ∧ homeFile result.2 = homeFile env
  ∧ getSource name result.2 = Some (newSource name type url options).
Proof.
  intros Hw Hshare result. subst result. unfold addSource, getSource.
  destruct (loadConfig env) as [config sharing] eqn:E. simpl in Hshare.
  set (source := {| src_name := name |}).
  set (sources' := match findIndex name (sources config) with
                   | Some i => <[i := source]> (sources config)
                   | None => sources config ++ [source]
                   end).
  assert (List.find (named name) sources' = Some source) as Hfind.
  { subst sources'.
    destruct (findIndex name (sources config)) as [i|] eqn:Ei.
    - rewrite (find_named_insert name name _ i source) by done.
      by rewrite decide_True.
    - rewrite (find_named_app name name) by done. by rewrite decide_True. }
  assert ((match sharing with
           | Fresh => env
           | _ => set_default_sources sources' env
           end) = set_default_sources sources' env) as ->
    by (by destruct sharing).
  unfold saveConfig. cbn [writable set_default_sources]. rewrite Hw.
  cbn [fst snd is_ok]. split_and!; try done.
  rewrite (loadConfig_set_default sources' env sharing config E Hshare).
  exact Hfind.
Qed.

Lemma addSource_refused_save_still_visible_witness :
  let env := {| cwdFile := Absent; homeFile := Absent; writable := false;
                defaults := defaultConfig |} in
  let result := addSource "x" "local" "/a" noOptions env in
  is_ok result.1 = false
  ∧ cwdFile result.2 = Absent
  ∧ homeFile result.2 = Absent
  ∧ getSource "x" result.2 = Some (newSource "x" "local" "/a" noOptions).
Proof.
  intros env.
  apply (addSource_refused_save_still_visible env "x" "local" "/a" noOptions).
  - reflexivity.
  - discriminate.
Defined.

(** * The remote fetcher and its cache *)

Section WriteThrough.

Implicit Types (w : World) (source : Source) (type name : string).

Lemma fetchFile_bypass source type name w :
  GitHubFetcher.fetchFile source type name false w
  = GitHubFetcher.download source type name w.
Proof. done. Qed.

Lemma download_ok source type name w body w' :
  GitHubFetcher.download source type name w = (Ok body, w') →
  CacheManager.setCachedFile source type name body w = (Ok (), w').
Proof.
  unfold GitHubFetcher.download. unfold_M.
  destruct (GitHubFetcher.buildRawUrl source type name) as [url|];
    [|done].
  destruct (net w url) as [e|status statusText content]; [done |].
  destruct (negb (response_ok status)); [by case_decide |].
  destruct (CacheManager.setCachedFile source type name content w)
    as [[[]|e] w1] eqn:Hs; [|done].
  by intros [= <- <-].
Qed.

Lemma download_frame source type name w :
  let w' := (GitHubFetcher.download source type name w).2 in
  clock w' = clock w ∧ net w' = net w ∧ homedir w' = homedir w.
Proof.
  unfold GitHubFetcher.download, CacheManager.setCachedFile. unfold_M.
  destruct (GitHubFetcher.buildRawUrl source type name) as [url|];
    [|done].
  destruct (net w url) as [e|status statusText content]; [done |].
  destruct (negb (response_ok status)); [by case_decide |].
  destruct (NodeFs.ensureDir _ _ _); [|done].
  by destruct (NodeFs.writeFile _ _ _ _).
Qed.

Lemma fetchFile_frame fetcher type name useCache w :
  let w' := (fetchFile fetcher type name useCache w).2 in
  clock w' = clock w ∧ net w' = net w ∧ homedir w' = homedir w.
Proof.
  destruct fetcher as [source|source|source packageRoot]; simpl.
  - unfold GitHubFetcher.fetchFile. unfold_M. destruct useCache.
    + destruct (CacheManager.getCachedFile _ _ _ _ w) as [[c|]|];
        [|apply download_frame | done].
      destruct (JsString.truthy c); [done | apply download_frame].
    + apply download_frame.
  - by rewrite NpmFetcher_fetchFile_world.
  - done.
Qed.

End WriteThrough.

Section FetchEffects.

Implicit Types (w : World) (source : Source) (type name : string).

Lemma GitHubFetcher_fetchFile_ok source type name useCache w body w' :
  GitHubFetcher.fetchFile source type name useCache w = (Ok body, w') →
  (w' = w
   ∧ ∃ mtime,
       NodeFs.lookup (CacheManager.getCachePath w source type name) (fs w)
       = Some (File body mtime)
       ∧ clock w - mtime < 3600000)
  ∨ CacheManager.setCachedFile source type name body w = (Ok (), w').
Proof.
  destruct useCache; [|intros H; right; by apply download_ok].
  change (GitHubFetcher.fetchFile source type name true w)
    with ((reading (CacheManager.getCachedFile source type name
                      (Some 3600000)) ≫=
             λ cached,
               match cached with
               | Some c => if JsString.truthy c then mret c
                           else GitHubFetcher.download source type name
               | None => GitHubFetcher.download source type name
               end) w).
  rewrite consult_cache. unfold through_cache.
  destruct (NodeFs.lookup _ (fs w)) as [[content mtime|mtime es]|] eqn:E.
  - case_bool_decide as Hage; simpl.
    + destruct (JsString.truthy content).
      * intros [= <- <-]. left. split; [done |]. by exists mtime.
      * intros H. right. by apply download_ok.
    + intros H. right. by apply download_ok.
  - case_bool_decide as Hage; [done |]. intros H. right.
    by apply download_ok.
  - intros H. right. by apply download_ok.
Qed.

Lemma attempt_ok_effect source type name packageRoot w content w' :
  attempt source type name packageRoot w = (Ok content, w') →
  w' = w
  ∨ (src_type source = "github"
     ∧ NodeFs.lookup (CacheManager.getCachePath w source type name) (fs w')
       = Some (File content (clock w))).
Proof.
  unfold attempt, createFetcher. case_decide as Hg.
  - simpl. intros H.
    apply GitHubFetcher_fetchFile_ok in H as [[-> _] | Hset]; [by left |].
    right. split; [done |]. by apply setCachedFile_ok in Hset as [? _].
  - case_decide as Hn; simpl; intros H; left.
    + pose proof (NpmFetcher_fetchFile_world source type name true w) as E.
      by rewrite H in E.
    + by injection H.
Qed.

Lemma loop_effect type name packageRoot sources : ∀ errors w,
  let result :=
    fetchTemplate_loop errors sources type name packageRoot w in
  clock result.2 = clock w ∧ net result.2 = net w
  ∧ homedir result.2 = homedir w
  ∧ match result.1 with
    | Throw _ => result.2 = w
    | Ok (content, source) =>
        source ∈ sources
        ∧ (result.2 = w
           ∨ (src_type source = "github"
              ∧ NodeFs.lookup
                  (CacheManager.getCachePath w source type name)
                  (fs result.2)
                = Some (File content (clock w))))
    end.
Proof.
  induction sources as [|source rest IH]; intros errors w; [done |].
  destruct (attempt source type name packageRoot w) as [[c|msg] w1] eqn:E.
  - rewrite (loop_cons_ok _ _ _ _ _ _ _ _ _ E). cbn [fst snd].
    pose proof (fetchFile_frame (createFetcher source packageRoot)
                  type name true w) as Hf.
    fold (attempt source type name packageRoot) in Hf. rewrite E in Hf.
    destruct Hf as (? & ? & ?). split_and!; try done; [by left |].
    by eapply attempt_ok_effect.
  - rewrite loop_cons_fail by (unfold failing; by rewrite E).
    specialize (IH (errors ++ [error_line type name packageRoot w source]) w).
    cbv zeta in IH. destruct IH as (? & ? & ? & IH).
    split_and!; try done.
    destruct (fetchTemplate_loop _ rest type name packageRoot w).1
      as [[content s]|]; [|done].
    destruct IH as [Hin IH]. split; [by right | done].
Qed.

End FetchEffects.

(** X8: a successful fetch from a GitHub source leaves the text it
    returned in the cache, less than an hour old: either the text was
    served from an entry that was already there and fresh, and nothing
    changed, or it was downloaded and written at the time of the fetch. *)
Theorem successful_fetch_is_cached
    (source : Source) (type name : string) (useCache : bool)
    (w w' : World) (body : string) :
  GitHubFetcher.fetchFile source type name useCache w = (Ok body, w') →
  ∃ mtime,
    NodeFs.lookup (CacheManager.getCachePath w' source type name) (fs w')
    = Some (File body mtime)
    ∧ clock w' - mtime < 3600000
    ∧ (w' = w ∨ mtime = clock w).
Proof.
  intros H.
  apply GitHubFetcher_fetchFile_ok in H as [[-> (mtime & Hl & Ha)] | Hset].
  - exists mtime. split_and!; [done | done | by left].
  - apply setCachedFile_ok in Hset as (Hl & Hc & Hh & _).
    exists (clock w). rewrite (getCachePath_homedir w w') by done.
    rewrite Hc. split_and!; [done | lia | by right].
Qed.

Lemma successful_fetch_is_cached_witness :
  ∃ w' mtime,
    GitHubFetcher.fetchFile acmeSource "component" "Button" true
      (emptyWorld acmeNet) = (Ok buttonText, w')
    ∧ NodeFs.lookup
        (CacheManager.getCachePath w' acmeSource "component" "Button")
        (fs w')
      = Some (File buttonText mtime)
    ∧ clock w' - mtime < 3600000
    ∧ (w' = emptyWorld acmeNet ∨ mtime = clock (emptyWorld acmeNet)).
Proof.
  eexists.
  assert (GitHubFetcher.fetchFile acmeSource "component" "Button" true
            (emptyWorld acmeNet) = (Ok buttonText, _)) as H
    by (vm_compute; reflexivity).
  destruct (successful_fetch_is_cached _ _ _ _ _ _ _ H) as (mtime & ?).
  exists mtime. by split.
Defined.

(** X9: what was downloaded is served from the cache, whatever the network
    does, as long as it is less than an hour old and is not the empty
    text; from then on, and always for an empty text, the fetch goes to
    the network again. *)
Theorem downloaded_then_served_for_an_hour
    (source : Source) (type name : string) (w w' : World) (body : string)
    (now : Z) (network : string → HttpOutcome) :
  GitHubFetcher.fetchFile source type name false w = (Ok body, w') →
  GitHubFetcher.fetchFile source type name true (later now network w')
  = if bool_decide (now - clock w < 3600000) && JsString.truthy body
    then (Ok body, later now network w')
    else GitHubFetcher.fetchFile source type name false
           (later now network w').
Proof.
  intros H. apply download_ok, setCachedFile_ok in H as (Hl & _ & Hh & _).
  change (GitHubFetcher.fetchFile source type name true
            (later now network w'))
    with ((reading (CacheManager.getCachedFile source type name
                      (Some 3600000)) ≫=
             λ cached,
               match cached with
               | Some c => if JsString.truthy c then mret c
                           else GitHubFetcher.download source type name
               | None => GitHubFetcher.download source type name
               end) (later now network w')).
  rewrite consult_cache. unfold through_cache.
  rewrite (getCachePath_homedir w (later now network w')) by done.
  cbn [fs later]. by rewrite Hl.
Qed.

Lemma downloaded_then_served_for_an_hour_witness :
  ∃ w',
    GitHubFetcher.fetchFile acmeSource "component" "Button" false
      (emptyWorld acmeNet) = (Ok buttonText, w')
    ∧ GitHubFetcher.fetchFile acmeSource "component" "Button" true
        (later 3600999 offline w')
      = (Ok buttonText, later 3600999 offline w')
    ∧ is_ok (GitHubFetcher.fetchFile acmeSource "component" "Button" true
               (later 3601000 offline w')).1 = false.
Proof.
  eexists.
  assert (GitHubFetcher.fetchFile acmeSource "component" "Button" false
            (emptyWorld acmeNet) = (Ok buttonText, _)) as H
    by (vm_compute; reflexivity).
  split; [exact H |]. split.
  - rewrite (downloaded_then_served_for_an_hour _ _ _ _ _ _ 3600999 offline H).
    reflexivity.
  - rewrite (downloaded_then_served_for_an_hour _ _ _ _ _ _ 3601000 offline H).
    vm_compute. reflexivity.
Defined.

(** X10: [fetchTemplate] changes the world in one way only.  When it
    fails, and when the content came from a local source, from the registry
    fetcher or out of the cache, the world is as before; otherwise the
    content was downloaded from a GitHub source, the one it is paired
    with, and is now in the cache file of that source for this template.
    Clock, network and home directory are never touched, and the source
    returned is one of the list. *)
Theorem fetchTemplate_only_caches_the_download
    (sources : list Source) (type name : string) (packageRoot : path)
    (w : World) :
  let result := fetchTemplate sources type name packageRoot w in
  clock result.2 = clock w ∧ net result.2 = net w
  ∧ homedir result.2 = homedir w
  ∧ match result.1 with
    | Throw _ => result.2 = w
    | Ok (content, source) =>
        source ∈ sources
        ∧ (result.2 = w
           ∨ (src_type source = "github"
              ∧ NodeFs.lookup
                  (CacheManager.getCachePath w source type name)
                  (fs result.2)
                = Some (File content (clock w))))
    end.
Proof. apply loop_effect. Qed.

(** * Listing all templates *)

Section ListAll.

Implicit Types (w : World) (s l : list string) (x y : string)
  (all : Templates).

Lemma listTemplates_world fetcher type useCache w :
  (listTemplates fetcher type useCache w).2 = w.
Proof.
  destruct fetcher as [source|source|source packageRoot]; simpl;
    [unfold GitHubFetcher.listTemplates | unfold NpmFetcher.listTemplates
    | done]; by destruct useCache.
Qed.

(** *** Sets in insertion order *)

Lemma elem_of_set_add x y s : x ∈ set_add y s ↔ x = y ∨ x ∈ s.
Proof.
  unfold set_add. case_decide as Hy.
  - split; [by right | intros [-> | ?]; done].
  - rewrite elem_of_app, list_elem_of_singleton. tauto.
Qed.

Lemma NoDup_set_add y s : NoDup s → NoDup (set_add y s).
Proof.
  intros Hs. unfold set_add. case_decide as Hy; [done |].
  apply NoDup_app. split_and!; [done | | apply NoDup_singleton].
  intros x Hx Hx'. apply list_elem_of_singleton in Hx'. by subst.
Qed.

Lemma elem_of_set_addAll x l : ∀ s, x ∈ set_addAll l s ↔ x ∈ l ∨ x ∈ s.
Proof.
  unfold set_addAll. induction l as [|y l IH]; intros s; simpl.
  - split; [by right | intros [H | H]; [by apply not_elem_of_nil in H | done]].
  - rewrite IH, elem_of_set_add, elem_of_cons. tauto.
Qed.

Lemma NoDup_set_addAll l : ∀ s, NoDup s → NoDup (set_addAll l s).
Proof.
  unfold set_addAll. induction l as [|y l IH]; intros s Hs; simpl; [done |].
  by apply IH, NoDup_set_add.
Qed.

(** *** Sorting *)

Lemma sort_insert_Permutation x l : sort_insert x l ≡ₚ x :: l.
Proof.
  induction l as [|y l IH]; simpl; [done |].
  destruct (String.leb x y); [done |]. rewrite IH. apply Permutation_swap.
Qed.

Lemma sort_Permutation l : sort l ≡ₚ l.
Proof.
  induction l as [|x l IH]; simpl; [done |].
  by rewrite sort_insert_Permutation, IH.
Qed.

Lemma sort_insert_Sorted x l :
  Sorted le_string l → Sorted le_string (sort_insert x l).
Proof.
  induction l as [|y l IH]; intros Hl; simpl.
  - by repeat constructor.
  - destruct (String.leb x y) eqn:Hxy.
    + constructor; [done | by constructor].
    + apply Sorted_inv in Hl as [Hl Hy].
      constructor; [by apply IH |].
      destruct l as [|z l]; simpl.
      * constructor. by destruct (String.leb_total x y) as [H | H];
          [rewrite H in Hxy |].
      * destruct (String.leb x z).
        -- constructor. by destruct (String.leb_total x y) as [H | H];
             [rewrite H in Hxy |].
        -- constructor. by apply HdRel_inv in Hy.
Qed.

Lemma sort_Sorted l : Sorted le_string (sort l).
Proof.
  induction l as [|x l IH]; simpl; [constructor | by apply sort_insert_Sorted].
Qed.

Lemma le_ne_lt x y : le_string x y → x ≠ y → lt_string x y.
Proof.
  unfold le_string, lt_string, String.leb, String.ltb.
  destruct (String.compare x y) eqn:E; try done.
  apply String.compare_eq_iff in E. by intros _ [].
Qed.

Lemma Sorted_strict l : Sorted le_string l → NoDup l → Sorted lt_string l.
Proof.
  induction 1 as [|x l Hl IH Hx]; intros Hnd; [constructor |].
  apply NoDup_cons in Hnd as [Hx' Hnd]. constructor; [by apply IH |].
  destruct Hx as [|y l Hxy]; constructor.
  apply le_ne_lt; [done |]. intros ->. apply Hx'. by left.
Qed.

(** *** The loops *)

Lemma contributes_nil fetcher w type x :
  ¬ contributes fetcher w [] type x.
Proof. intros (before & after & names & H & _). by destruct before. Qed.

Lemma contributes_cons_ok fetcher w t ts type x names :
  (listTemplates fetcher t true w).1 = Ok names →
  contributes fetcher w (t :: ts) type x
  ↔ (t = type ∧ x ∈ names) ∨ contributes fetcher w ts type x.
Proof.
  intros Ht. split.
  - intros ([|t' before] & after & names' & Hts & Hb & Hn & Hx).
    + injection Hts as -> ->. left. split; [done | congruence].
    + injection Hts as <- ->. right. exists before, after, names'.
      split_and!; try done. intros t0 Ht0. apply Hb. by right.
  - intros [[-> Hx] | (before & after & names' & -> & Hb & Hn & Hx)].
    + exists [], ts, names. split_and!; try done.
      intros t0 Ht0. by apply not_elem_of_nil in Ht0.
    + exists (t :: before), after, names'. split_and!; try done.
      intros t0 Ht0. apply elem_of_cons in Ht0 as [-> | Ht0];
        [by rewrite Ht | by apply Hb].
Qed.

Lemma contributes_cons_throw fetcher w t ts type x msg :
  (listTemplates fetcher t true w).1 = Throw msg →
  ¬ contributes fetcher w (t :: ts) type x.
Proof.
  intros Ht ([|t' before] & after & names' & Hts & Hb & Hn & Hx).
  - injection Hts as -> ->. congruence.
  - injection Hts as <- ->. specialize (Hb t (list_elem_of_here _ _)).
    by rewrite Ht in Hb.
Qed.

(** What one pass over the types does to the set of a type. *)
Lemma listTypes_spec fetcher w ts : ∀ all,
  (listTypes fetcher ts all w).2 = w
  ∧ ∀ type,
      match all !! type with
      | None => (listTypes fetcher ts all w).1 !! type = None
      | Some s =>
          ∃ s', (listTypes fetcher ts all w).1 !! type = Some s'
                ∧ (NoDup s → NoDup s')
                ∧ ∀ x, x ∈ s' ↔ x ∈ s ∨ contributes fetcher w ts type x
      end.
Proof.
  induction ts as [|t ts IH]; intros all.
  - split; [done |]. intros type. simpl. destruct (all !! type) as [s|];
      [|done].
    exists s. split_and!; try done. intros x. split; [by left |].
    intros [? | H]; [done | by apply contributes_nil in H].
  - cbn [listTypes].
    pose proof (listTemplates_world fetcher t true w) as Hw.
    destruct (listTemplates fetcher t true w) as [[names|msg] w'] eqn:E;
      simpl in Hw; subst w'.
    + destruct (IH (alter (set_addAll names) t all)) as [IHw IHt].
      split; [done |]. intros type. specialize (IHt type).
      rewrite lookup_alter in IHt.
      assert ((listTemplates fetcher t true w).1 = Ok names) as Hn
        by (by rewrite E).
      case_decide as Htype.
      * subst type. destruct (all !! t) as [s|]; simpl in IHt; [|done].
        destruct IHt as (s' & Hs' & Hnd & Hx). exists s'.
        split_and!; [done | by intros ?; apply Hnd, NoDup_set_addAll |].
        intros x. rewrite Hx, elem_of_set_addAll,
          (contributes_cons_ok _ _ _ _ _ _ _ Hn). tauto.
      * destruct (all !! type) as [s|]; [|done].
        destruct IHt as (s' & Hs' & Hnd & Hx). exists s'.
        split_and!; try done.
        intros x. rewrite Hx, (contributes_cons_ok _ _ _ _ _ _ _ Hn).
        tauto.
    + split; [done |]. intros type. simpl.
      destruct (all !! type) as [s|]; [|done].
      exists s. split_and!; try done. intros x. split; [by left |].
      intros [? | H]; [done |].
      by apply (contributes_cons_throw fetcher w t ts type x msg) in H;
        [| rewrite E].
Qed.

(** The loop over the sources. *)
Lemma listSources_spec packageRoot w sources : ∀ all,
  let result :=
    foldl (λ '(allTemplates, w) source,
             listTypes (createFetcher source packageRoot) types
               allTemplates w)
          (all, w) sources in
  result.2 = w
  ∧ ∀ type,
      match all !! type with
      | None => result.1 !! type = None
      | Some s =>
          ∃ s', result.1 !! type = Some s'
                ∧ (NoDup s → NoDup s')
                ∧ ∀ x, x ∈ s' ↔
                    x ∈ s
                    ∨ ∃ source,
                        source ∈ sources
                        ∧ contributes (createFetcher source packageRoot)
                            w types type x
      end.
Proof.
  induction sources as [|source rest IH]; intros all.
  - split; [done |]. intros type. simpl. destruct (all !! type) as [s|];
      [|done].
    exists s. split_and!; try done. intros x. split; [by left |].
    intros [? | (? & H & _)]; [done | by apply not_elem_of_nil in H].
  - cbn [foldl].
    destruct (listTypes_spec (createFetcher source packageRoot) w types all)
      as [Hw Ht].
    destruct (listTypes (createFetcher source packageRoot) types all w)
      as [all1 w1] eqn:E. simpl in Hw, Ht. subst w1.
    destruct (IH all1) as [IHw IHt]. split; [done |]. intros type.
    specialize (Ht type). specialize (IHt type).
    destruct (all !! type) as [s|].
    + destruct Ht as (s1 & Hs1 & Hnd1 & Hx1). rewrite Hs1 in IHt.
      destruct IHt as (s' & Hs' & Hnd & Hx). exists s'.
      split_and!; [done | by intros ?; apply Hnd, Hnd1 |].
      intros x. rewrite Hx, Hx1. split.
      * intros [[? | ?] | (s0 & ? & ?)]; [by left | right | right].
        -- exists source. split; [by left | done].
        -- exists s0. split; [by right | done].
      * intros [? | (s0 & Hin & ?)]; [by left; left |].
        apply elem_of_cons in Hin as [-> | ?]; [by left; right |].
        right. by exists s0.
    + by rewrite Ht in IHt.
Qed.

End ListAll.

Section ListAllResult.

Implicit Types (w : World) (sources : list Source).

(** The result of [listAllTemplates] for one of the three types. *)
Lemma listAllTemplates_spec sources packageRoot w type :
  type ∈ types →
  (listAllTemplates sources packageRoot w).2 = w
  ∧ ∃ s, (listAllTemplates sources packageRoot w).1 !! type = Some (sort s)
         ∧ NoDup s
         ∧ ∀ x, x ∈ s ↔
             ∃ source,
               source ∈ sources
               ∧ contributes (createFetcher source packageRoot)
                   w types type x.
Proof.
  intros Htype. unfold listAllTemplates.
  set (empty := list_to_map ((λ t, (t, [])) <$> types) : Templates).
  destruct (listSources_spec packageRoot w sources empty) as [Hw Ht].
  destruct (foldl _ (empty, w) sources) as [all w'] eqn:E.
  simpl in Hw, Ht. subst w'. split; [done |].
  specialize (Ht type).
  assert (empty !! type = Some []) as Hempty.
  { unfold types in Htype.
    repeat (apply elem_of_cons in Htype as [-> | Htype]; [done |]).
    by apply not_elem_of_nil in Htype. }
  rewrite Hempty in Ht. destruct Ht as (s & Hs & Hnd & Hx).
  exists s. cbn [fst]. rewrite lookup_fmap, Hs.
  split_and!; [done | apply Hnd, NoDup_nil_2 |].
  intros x. rewrite Hx. split; [|by right].
  intros [H | H]; [by apply not_elem_of_nil in H | done].
Qed.

End ListAllResult.

(** X11: for each of the three types, the list [listAllTemplates] returns
    is in strictly ascending order, so no name occurs twice however many
    sources list it; nothing in the world is changed. *)
Theorem listAllTemplates_sorted_without_duplicates
    (sources : list Source) (packageRoot : path) (w : World)
    (type : string) :
  type ∈ types →
  (listAllTemplates sources packageRoot w).2 = w
  ∧ ∃ l, (listAllTemplates sources packageRoot w).1 !! type = Some l
         ∧ Sorted lt_string l
         ∧ NoDup l.
Proof.
  intros Htype.
  destruct (listAllTemplates_spec sources packageRoot w type Htype)
    as (Hw & s & Hs & Hnd & _).
  split; [done |]. exists (sort s).
  assert (NoDup (sort s)) as Hnd' by by rewrite sort_Permutation.
  split_and!; [done | | done].
  apply Sorted_strict; [apply sort_Sorted | done].
Qed.

Lemma listAllTemplates_sorted_without_duplicates_witness :
  (listAllTemplates [localSource; acmeSource; registrySource] packageDir
     bundledWorld).2 = bundledWorld
  ∧ ∃ l, (listAllTemplates [localSource; acmeSource; registrySource]
            packageDir bundledWorld).1 !! "component" = Some l
         ∧ Sorted lt_string l
         ∧ NoDup l.
Proof.
  apply (listAllTemplates_sorted_without_duplicates
           [localSource; acmeSource; registrySource] packageDir bundledWorld
           "component").
  apply list_elem_of_here.
Defined.

(** The button that both the package and the cache of [acme] hold is
    listed once. *)
Example merged_listing_example :
  (listAllTemplates [localSource; acmeSource; registrySource] packageDir
     bundledWorld).1 !! "component"
  = Some ["Button"; "Card"; "Modal"].
Proof. vm_compute. reflexivity. Qed.

(** X12: a name is in the list [listAllTemplates] returns for a type
    exactly when some source contributes it: the listings of that source
    for the types before this one and for this one succeed, and the latter
    contains the name.  A source whose listing throws is skipped from that
    type on and takes nothing away from the others. *)
Theorem listAllTemplates_members
    (sources : list Source) (packageRoot : path) (w : World)
    (type : string) (l : list string) (x : string) :
  (listAllTemplates sources packageRoot w).1 !! type = Some l →
  x ∈ l ↔
    ∃ source,
      source ∈ sources
      ∧ contributes (createFetcher source packageRoot) w types type x.
Proof.
  intros Hl.
  destruct (decide (type ∈ types)) as [Htype | Htype].
  - destruct (listAllTemplates_spec sources packageRoot w type Htype)
      as (_ & s & Hs & _ & Hx).
    rewrite Hs in Hl. injection Hl as <-.
    by rewrite sort_Permutation.
  - exfalso. unfold listAllTemplates in Hl.
    set (empty := list_to_map ((λ t, (t, [])) <$> types) : Templates) in Hl.
    destruct (listSources_spec packageRoot w sources empty) as [_ Ht].
    destruct (foldl _ (empty, w) sources) as [all w'].
    specialize (Ht type). cbn [fst] in Ht, Hl.
    assert (empty !! type = None) as Hempty.
    { apply not_elem_of_list_to_map_1. by rewrite <- list_fmap_compose,
        list_fmap_id. }
    rewrite Hempty in Ht. by rewrite lookup_fmap, Ht in Hl.
Qed.

Lemma listAllTemplates_members_witness :
  "Card" ∈ ["Button"; "Card"; "Modal"] ↔
    ∃ source,
      source ∈ [localSource; acmeSource; registrySource]
      ∧ contributes (createFetcher source packageDir) bundledWorld types
          "component" "Card".
Proof.
  apply (listAllTemplates_members
           [localSource; acmeSource; registrySource] packageDir bundledWorld
           "component").
  vm_compute. reflexivity.
Defined.

(** * What can be fetched is listed *)

Section FetchAndList.

Implicit Types (w : World) (source : Source) (type name : string)
  (p d : path) (n : node).

Lemma join_file base args type name :
  JsString.includes "/" name = false →
  NodePath.join base (args ++ [name +:+ getFileExtension type])
  = NodePath.join base args ++ [name +:+ getFileExtension type].
Proof.
  intros Hn. unfold NodePath.join.
  rewrite bind_app, foldl_app. simpl. rewrite app_nil_r.
  rewrite (split_no_slash (name +:+ getFileExtension type))
    by (apply includes_slash_app; [done | apply includes_slash_ext]).
  simpl. apply step_file.
Qed.

Lemma lookup_snoc f d : ∀ n x,
  NodeFs.lookup (d ++ [f]) n = Some x →
  ∃ m es, NodeFs.lookup d n = Some (Dir m es) ∧ es !! f = Some x.
Proof.
  induction d as [|seg d IH]; intros n x H.
  - destruct n as [|m es]; [done |]. simpl in H.
    destruct (es !! f) as [c|] eqn:Hc; [|done]. injection H as ->.
    by exists m, es.
  - destruct n as [|m es]; [done |]. simpl in *.
    destruct (es !! seg) as [c|]; [by apply IH | done].
Qed.

(** A template file in a directory is listed under its name. *)
Lemma listed_of_entry type name (es : gmap string node) x :
  name ≠ "" →
  es !! (name +:+ getFileExtension type) = Some x →
  name ∈ map NodePath.parseName
           (List.filter isTemplateFile (map_to_list es).*1).
Proof.
  intros Hne Hx. apply elem_of_listing.
  exists (name +:+ getFileExtension type). split_and!.
  - by exists x.
  - apply isTemplateFile_name.
  - by rewrite parseName_file.
Qed.

End FetchAndList.

(** X13: what the fetcher of a local source can fetch, it lists: when
    [fetchFile] succeeds for a name that is not empty and has no path
    separator, [listTemplates] for the type succeeds and contains the
    name. *)
Theorem local_fetch_implies_listed
    (source : Source) (packageRoot : path) (type name content : string)
    (w : World) :
  name ≠ "" →
  JsString.includes "/" name = false →
  (LocalFetcher.fetchFile source packageRoot type name w).1 = Ok content →
  ∃ l, (LocalFetcher.listTemplates source packageRoot type w).1 = Ok l
       ∧ name ∈ l.
Proof.
  intros Hne Hsep. unfold LocalFetcher.fetchFile, LocalFetcher.listTemplates,
    reading. cbn [fst].
  change [pluralizeType type; name +:+ getFileExtension type]
    with ([pluralizeType type] ++ [name +:+ getFileExtension type]).
  rewrite join_file by done.
  set (dir := NodePath.join _ [pluralizeType type]).
  unfold NodeFs.pathExists, NodeFs.readFile, NodeFs.readdir.
  destruct (NodeFs.lookup (dir ++ _) (fs w)) as [x|] eqn:E.
  - intros _. apply lookup_snoc in E as (m & es & Hdir & Hfile).
    rewrite Hdir. rewrite bool_decide_true by done. simpl.
    eexists. split; [done |]. by eapply listed_of_entry.
  - by rewrite bool_decide_false by (by intros [? ?]).
Qed.

Lemma local_fetch_implies_listed_witness :
  ∃ l, (LocalFetcher.listTemplates localSource packageDir "hook"
          bundledWorld).1 = Ok l
       ∧ "useAuth" ∈ l.
Proof.
  apply (local_fetch_implies_listed localSource packageDir "hook" "useAuth"
           "auth" bundledWorld).
  - discriminate.
  - reflexivity.
  - vm_compute. reflexivity.
Defined.

(** X14: the listing of a GitHub source shows what has been fetched from
    it: after a successful [fetchFile] for a name that is not empty and has
    no path separator, [listTemplates] for the type contains the name,
    whatever the network holds. *)
Theorem fetched_template_is_listed
    (source : Source) (type name body : string) (useCache : bool)
    (w w' : World) :
  name ≠ "" →
  JsString.includes "/" name = false →
  GitHubFetcher.fetchFile source type name useCache w = (Ok body, w') →
  ∃ l, (GitHubFetcher.listTemplates source type true w').1 = Ok l
       ∧ name ∈ l.
Proof.
  intros Hne Hsep H.
  assert (∃ mtime,
            NodeFs.lookup (CacheManager.getCachePath w' source type name)
              (fs w') = Some (File body mtime)) as [mtime Hl].
  { apply GitHubFetcher_fetchFile_ok in H as [[-> (mtime & Hl & _)] | Hset].
    - by exists mtime.
    - apply setCachedFile_ok in Hset as (Hl & _ & Hh & _).
      exists (clock w). by rewrite (getCachePath_homedir w w'). }
  rewrite getCachePath_in_typeDir in Hl by done.
  apply lookup_snoc in Hl as (m & es & Hdir & Hfile).
  unfold GitHubFetcher.listTemplates, reading. cbn [fst].
  rewrite (listCachedTemplates_dir source type w' m es Hdir).
  eexists. split; [done |]. by eapply listed_of_entry.
Qed.

Lemma fetched_template_is_listed_witness :
  ∃ w' l,
    GitHubFetcher.fetchFile acmeSource "component" "Button" true
      (emptyWorld acmeNet) = (Ok buttonText, w')
    ∧ (GitHubFetcher.listTemplates acmeSource "component" true
         (emptyWorld acmeNet)).1 = Ok []
    ∧ (GitHubFetcher.listTemplates acmeSource "component" true w').1 = Ok l
    ∧ "Button" ∈ l.
Proof.
  eexists.
  assert (GitHubFetcher.fetchFile acmeSource "component" "Button" true
            (emptyWorld acmeNet) = (Ok buttonText, _)) as H
    by (vm_compute; reflexivity).
  destruct (fetched_template_is_listed acmeSource "component" "Button"
              buttonText true _ _ ltac:(discriminate) eq_refl H)
    as (l & Hl & Hin).
  exists l. split_and!; [exact H | reflexivity | exact Hl | exact Hin].
Defined.

(** * The [add] command *)

Section AddCommand.

Implicit Types (w : World) (sources : list Source) (options : AddOptions).

Lemma add_name_concerns sources cwd packageRoot options type name w :
  concerns cwd options type name
    (add_name sources cwd packageRoot options type name w).1.
Proof.
  unfold add_name.
  destruct (NodeFs.pathExists _ (fs w) && negb (add_overwrite options));
    [done |].
  by repeat case_match.
Qed.

Lemma add_names_concerns sources cwd packageRoot options type names :
  ∀ w, Forall2 (concerns cwd options type) names
         (add_names sources cwd packageRoot options type names w).1.
Proof.
  induction names as [|name rest IH]; intros w; [constructor |].
  cbn [add_names].
  pose proof (add_name_concerns sources cwd packageRoot options type name w)
    as Hc.
  destruct (add_name sources cwd packageRoot options type name w)
    as [event w1].
  specialize (IH w1).
  destruct (add_names sources cwd packageRoot options type rest w1)
    as [evs w2].
  by constructor.
Qed.

Lemma filter_named_nil_iff n (l : list Source) :
  List.filter (named n) l = [] ↔ ∀ s, s ∈ l → src_name s ≠ n.
Proof.
  split; [|apply filter_named_nil].
  intros H s Hs Hn.
  assert (s ∈ List.filter (named n) l) as Hin.
  { apply list_elem_of_In, filter_In. split; [by apply list_elem_of_In |].
    unfold named. by rewrite bool_decide_true. }
  rewrite H in Hin. by apply not_elem_of_nil in Hin.
Qed.

End AddCommand.

(** X15: the [add] command deals with every name it is given, in order,
    whatever happens to the names before: each name gets exactly one
    report, and the exit code is 1 exactly when the report of some name is
    a failure (a file that exists already is not one), otherwise 0.  Only
    when a non-empty [--source] names no configured source does it stop at
    once, with exit code 1 and the world untouched. *)
Theorem add_reports_every_name
    (env : ConfigEnv) (cwd packageRoot : path) (type : string)
    (names : list string) (options : AddOptions) (w : World) :
  let result := add env cwd packageRoot type names options w in
  match events result.1 with
  | Some evs =>
      Forall2 (concerns cwd options type) names evs
      ∧ exitCode result.1 = (if existsb is_failure evs then 1 else 0)
  | None =>
      exitCode result.1 = 1 ∧ result.2 = w
      ∧ ∃ n, add_source options = Some n ∧ n ≠ ""
             ∧ ∀ s, s ∈ getSources env → src_name s ≠ n
  end.
Proof.
  unfold add, getSources.
  destruct (sourceOption options) as [n|] eqn:Hn.
  - destruct (List.filter (named n) (sources (loadConfig env).1))
      as [|s l] eqn:Hf.
    + cbn [fst snd events exitCode]. split_and!; try done.
      exists n. unfold sourceOption in Hn.
      destruct (add_source options) as [n'|]; [|done].
      destruct n' as [|a n']; [done |]. injection Hn as <-.
      split_and!; [done | done |]. by apply filter_named_nil_iff.
    + pose proof (add_names_concerns (s :: l) cwd packageRoot options type
                    names w) as Hc.
      destruct (add_names (s :: l) cwd packageRoot options type names w)
        as [evs w']. by cbn [fst snd events exitCode].
  - pose proof (add_names_concerns (sources (loadConfig env).1) cwd
                  packageRoot options type names w) as Hc.
    destruct (add_names _ cwd packageRoot options type names w) as [evs w'].
    by destruct (sources (loadConfig env).1).
Qed.

(** The second name fails, the third is added all the same. *)
Example add_three_names_example :
  let result :=
    add freshEnv projectDir packageDir "component"
      ["Button"; "Missing"; "Modal"]
      {| add_dest := "src"; add_overwrite := false; add_source := None |}
      bundledWorld in
  exitCode result.1 = 1
  ∧ is_failure <$> default [] (events result.1) = [false; true; false]
  ∧ NodeFs.readFile (targetFile projectDir "src" "component" "Modal")
      (fs result.2) = Ok "modal".
Proof. vm_compute. done. Qed.

(** X16: when a name is reported as added, the file at its target path
    holds exactly the content [fetchTemplate] returned for it, and the
    source reported is the one that content came from. *)
Theorem added_file_holds_fetched_content
    (sources : list Source) (cwd packageRoot : path) (options : AddOptions)
    (type name : string) (w w' : World)
    (type' name' : string) (target : path) (source : Source) :
  add_name sources cwd packageRoot options type name w
  = (Added type' name' target source, w') →
  target = targetFile cwd (add_dest options) type name
  ∧ ∃ content w1,
      fetchTemplate sources type name packageRoot w
      = (Ok (content, source), w1)
      ∧ NodeFs.readFile target (fs w') = Ok content.
Proof.
  unfold add_name.
  set (tgt := targetFile cwd (add_dest options) type name).
  destruct (NodeFs.pathExists tgt (fs w) && negb (add_overwrite options));
    [done |].
  unfold mbind, M_bind, mret, M_ret.
  destruct (fetchTemplate sources type name packageRoot w)
    as [[[content s]|msg] w1] eqn:Hfetch; [|done].
  unfold ensureDir.
  destruct (NodeFs.ensureDir (clock w1) (NodePath.dirname tgt) (fs w1))
    as [root1|]; [|done].
  unfold writeFile. cbn [fs clock set_fs].
  destruct (NodeFs.writeFile (clock w1) tgt content root1)
    as [root2|] eqn:Hw; [|done].
  intros [= <- <- <- <- <-]. split; [done |].
  exists content, w1. split; [done |].
  unfold NodeFs.readFile. cbn [fs set_fs].
  by rewrite (writeFile_lookup _ _ _ _ _ Hw).
Qed.

Lemma added_file_holds_fetched_content_witness :
  ∃ w',
    add_name [localSource] projectDir packageDir
      {| add_dest := "src"; add_overwrite := false; add_source := None |}
      "component" "Button" bundledWorld
    = (Added "component" "Button"
         (targetFile projectDir "src" "component" "Button") localSource, w')
    ∧ NodeFs.readFile (targetFile projectDir "src" "component" "Button")
        (fs w') = Ok "local button".
Proof.
  eexists.
  assert (add_name [localSource] projectDir packageDir
            {| add_dest := "src"; add_overwrite := false;
               add_source := None |}
            "component" "Button" bundledWorld
          = (Added "component" "Button"
               (targetFile projectDir "src" "component" "Button")
               localSource, _)) as H by (vm_compute; reflexivity).
  split; [exact H |].
  destruct (added_file_holds_fetched_content _ _ _ _ _ _ _ _ _ _ _ _ H)
    as (_ & content & w1 & Hfetch & Hread).
  rewrite Hread. f_equal.
  assert ((fetchTemplate [localSource] "component" "Button" packageDir
             bundledWorld).1 = Ok ("local button", localSource)) as Hc
    by (vm_compute; reflexivity).
  rewrite Hfetch in Hc. by injection Hc.
Defined.

(** * One cache file per template *)

Section CacheFrame.

Implicit Types (w : World) (source : Source) (type name : string)
  (p q : path) (n : node).

(** [ensureDir] changes no regular file. *)
Lemma ensureDir_keeps_files now p : ∀ q n n' c m,
  NodeFs.ensureDir now p n = Ok n' →
  NodeFs.lookup q n = Some (File c m) →
  NodeFs.lookup q n' = Some (File c m).
Proof.
  induction p as [|seg p IH]; intros q n n' c m He Hq.
  - by apply ensureDir_nil in He as ->.
  - apply ensureDir_cons in He as (m0 & es & c' & -> & He).
    destruct q as [|s q]; [done |]. cbn [NodeFs.lookup] in *.
    destruct (es !! s) as [cq|] eqn:Hs; [|done].
    destruct (es !! seg) as [cp|] eqn:Hseg; destruct He as [He ->];
      cbn [NodeFs.lookup]; rewrite lookup_insert; case_decide as Hd.
    + subst s. rewrite Hseg in Hs. injection Hs as ->. by eapply IH.
    + by rewrite Hs.
    + subst s. by rewrite Hseg in Hs.
    + by rewrite Hs.
Qed.

(** [writeFile] changes no regular file but its own. *)
Lemma writeFile_keeps_other_files now content p : ∀ q n n' c m,
  NodeFs.writeFile now p content n = Ok n' →
  q ≠ p →
  NodeFs.lookup q n = Some (File c m) →
  NodeFs.lookup q n' = Some (File c m).
Proof.
  induction p as [|seg p IH]; intros q n n' c m Hw Hne Hq.
  - destruct n; [|done]. destruct q; [done |]. done.
  - destruct n as [|m0 es]; [done |].
    destruct q as [|s q]; [done |]. cbn [NodeFs.lookup NodeFs.writeFile] in *.
    destruct (es !! s) as [cq|] eqn:Hs; [|done].
    destruct (es !! seg) as [cp|] eqn:Hseg.
    + apply rbind_Ok in Hw as (c' & Hc' & [= <-]).
      cbn [NodeFs.lookup]. rewrite lookup_insert. case_decide as Hd.
      * subst s. rewrite Hseg in Hs. injection Hs as ->.
        eapply IH; [done | congruence | done].
      * by rewrite Hs.
    + destruct p; [|done]. injection Hw as <-.
      cbn [NodeFs.lookup]. rewrite lookup_insert. case_decide as Hd.
      * subst s. by rewrite Hseg in Hs.
      * by rewrite Hs.
Qed.

Lemma setCachedFile_keeps_other_files source type name content w q c m :
  NodeFs.lookup q (fs w) = Some (File c m) →
  q ≠ CacheManager.getCachePath w source type name →
  NodeFs.lookup q
    (fs (CacheManager.setCachedFile source type name content w).2)
  = Some (File c m).
Proof.
  intros Hq Hne. unfold CacheManager.setCachedFile.
  destruct (NodeFs.ensureDir _ _ _) as [fs1|] eqn:He; [|done].
  pose proof (ensureDir_keeps_files _ _ _ _ _ _ _ He Hq) as Hq1.
  destruct (NodeFs.writeFile _ _ _ _) as [fs2|] eqn:Hw; [|done].
  cbn [snd fs set_fs]. by eapply writeFile_keeps_other_files.
Qed.

(** *** Cache paths of well-formed keys *)

Lemma step_plain p s : plain s → NodePath.step p s = p ++ [s].
Proof.
  intros (_ & H1 & H2 & H3). unfold NodePath.step.
  rewrite decide_False by (by intros [? | ?]).
  by rewrite decide_False.
Qed.

Lemma join_plain base s args :
  plain s → NodePath.join base (s :: args) = NodePath.join (base ++ [s]) args.
Proof.
  intros Hs. unfold NodePath.join. cbn [mbind list_bind].
  change (foldl NodePath.step base
            (NodePath.split s ++ (args ≫= NodePath.split))
          = foldl NodePath.step (base ++ [s]) (args ≫= NodePath.split)).
  rewrite foldl_app, (split_no_slash s) by apply Hs. simpl.
  by rewrite step_plain.
Qed.

Lemma plain_pluralizeType type :
  JsString.includes "/" type = false → plain (pluralizeType type).
Proof.
  intros Ht. unfold pluralizeType. split_and!.
  - by apply includes_slash_app.
  - by destruct type.
  - destruct type as [|c [|c' t]]; done.
  - destruct type as [|c [|c' [|c'' t]]]; done.
Qed.

Lemma plain_file type name :
  JsString.includes "/" name = false → plain (name +:+ getFileExtension type).
Proof.
  intros Hn. pose proof (length_ext type) as Hl.
  assert (3 ≤ String.length (name +:+ getFileExtension type))%nat as Hlen
    by (rewrite length_app; lia).
  split_and!.
  - apply includes_slash_app; [done | apply includes_slash_ext].
  - intros E. rewrite E in Hlen. simpl in Hlen. lia.
  - intros E. rewrite E in Hlen. simpl in Hlen. lia.
  - intros E. rewrite E in Hlen. simpl in Hlen. lia.
Qed.

Lemma getCachePath_plain w source type name :
  plain (src_name source) →
  JsString.includes "/" type = false →
  JsString.includes "/" name = false →
  CacheManager.getCachePath w source type name
  = getCacheDir w
    ++ [src_name source; pluralizeType type;
        name +:+ getFileExtension type].
Proof.
  intros Hs Ht Hn. unfold CacheManager.getCachePath.
  rewrite join_plain by done.
  rewrite join_plain by by apply plain_pluralizeType.
  rewrite join_plain by by apply plain_file.
  unfold NodePath.join. simpl. by rewrite <- !app_assoc.
Qed.

Lemma append_cancel_r (a b c : string) : a +:+ c = b +:+ c → a = b.
Proof.
  revert b. induction a as [|x a IH]; intros [|y b] H; simpl in *.
  - done.
  - apply (f_equal String.length) in H. simpl in H.
    rewrite !length_app in H. simpl in H. lia.
  - apply (f_equal String.length) in H. simpl in H.
    rewrite !length_app in H. simpl in H. lia.
  - injection H as -> H. f_equal. by apply IH.
Qed.

End CacheFrame.

(** X17: [setCachedFile] writes one file.  Whatever its outcome, every
    other regular file on the disk, cached or not, is as before; so another
    template that was cached is still returned by [getCachedFile], with the
    same age. *)
Theorem setCachedFile_changes_one_file
    (source : Source) (type name content : string) (w : World)
    (q : path) (c : string) (m : Z) :
  NodeFs.lookup q (fs w) = Some (File c m) →
  q ≠ CacheManager.getCachePath w source type name →
  let w' := (CacheManager.setCachedFile source type name content w).2 in
  NodeFs.lookup q (fs w') = Some (File c m)
  ∧ ∀ source' type' name' ttl,
      q = CacheManager.getCachePath w source' type' name' →
      CacheManager.getCachedFile source' type' name' ttl w'
      = CacheManager.getCachedFile source' type' name' ttl w.
Proof.
  intros Hq Hne w'.
  pose proof (setCachedFile_keeps_other_files source type name content w
                q c m Hq Hne) as Hq'.
  split; [done |]. intros source' type' name' ttl ->.
  assert (homedir w' = homedir w ∧ clock w' = clock w) as [Hh Hc].
  { subst w'. unfold CacheManager.setCachedFile.
    destruct (NodeFs.ensureDir _ _ _); [|done].
    by destruct (NodeFs.writeFile _ _ _ _). }
  rewrite (getCachedFile_file source' type' name' ttl w' c m)
    by by rewrite (getCachePath_homedir w w').
  rewrite (getCachedFile_file source' type' name' ttl w c m) by done.
  by rewrite Hc.
Qed.

Lemma setCachedFile_changes_one_file_witness :
  let w := cachedWorld "acme" buttonText 5000 offline in
  let w' := (CacheManager.setCachedFile acmeSource "component" "Card" "card"
               w).2 in
  NodeFs.lookup (CacheManager.getCachePath w acmeSource "component" "Button")
    (fs w') = Some (File buttonText 0)
  ∧ ∀ source' type' name' ttl,
      CacheManager.getCachePath w acmeSource "component" "Button"
      = CacheManager.getCachePath w source' type' name' →
      CacheManager.getCachedFile source' type' name' ttl w'
      = CacheManager.getCachedFile source' type' name' ttl w.
Proof.
  intros w w'.
  apply (setCachedFile_changes_one_file acmeSource "component" "Card" "card"
           w (CacheManager.getCachePath w acmeSource "component" "Button")
           buttonText 0).
  - vm_compute. reflexivity.
  - vm_compute. discriminate.
Defined.

(** X18: the cache path is a key without collisions: for source names
    that are plain path segments and types and names without separator,
    two templates have the same cache path only if they agree in source
    name, type and name. *)
Theorem cache_paths_do_not_collide
    (w : World) (source1 source2 : Source) (type1 type2 name1 name2 : string) :
  plain (src_name source1) → plain (src_name source2) →
  JsString.includes "/" type1 = false → JsString.includes "/" type2 = false →
  JsString.includes "/" name1 = false → JsString.includes "/" name2 = false →
  CacheManager.getCachePath w source1 type1 name1
  = CacheManager.getCachePath w source2 type2 name2 →
  src_name source1 = src_name source2 ∧ type1 = type2 ∧ name1 = name2.
Proof.
  intros Hs1 Hs2 Ht1 Ht2 Hn1 Hn2.
  rewrite !getCachePath_plain by done.
  intros H. apply app_inv_head in H. injection H as Hs Ht Hn.
  unfold pluralizeType in Ht. apply append_cancel_r in Ht. subst type2.
  apply append_cancel_r in Hn. done.
Qed.

Lemma cache_paths_do_not_collide_witness :
  CacheManager.getCachePath (emptyWorld offline) acmeSource "hook" "useAuth"
  = CacheManager.getCachePath (emptyWorld offline) acmeSource "hook" "useAuth"
  ∧ src_name acmeSource = src_name acmeSource.
Proof.
  split; [reflexivity |].
  apply (cache_paths_do_not_collide (emptyWorld offline) acmeSource acmeSource
           "hook" "hook" "useAuth" "useAuth");
    try reflexivity; by vm_compute.
Defined.

(** * Pushing to a git source *)

Section Push.

Variable git : Git.

Implicit Types (source : Source) (type name content : string)
  (options : PushOptions) (st : PushState).

Ltac destruct_step :=
  match goal with
  | |- context [git ?c ?h ?f] =>
      destruct (git c h f) as [[?|?] ?]
  | |- context [NodeFs.lookup ?p ?n] =>
      destruct (NodeFs.lookup p n) as [[? ?|? ?]|]
  | |- context [NodeFs.ensureDir ?a ?p ?n] =>
      destruct (NodeFs.ensureDir a p n) as [?|?]
  | |- context [NodeFs.writeFile ?a ?p ?c ?n] =>
      destruct (NodeFs.writeFile a p c n) as [?|?]
  | |- context [match ?l with [] => _ | _ :: _ => _ end] =>
      is_var l; destruct l
  end; cbn [fst snd world commands fs clock homedir set_fs net].

Ltac finish_leaf := try done; try (by eexists); try (by eexists _, _, _, _).

Ltac solve_leaf :=
  first
    [ exists []; split; [by rewrite app_nil_r |];
      split; [apply prefix_nil |]; finish_leaf
    | rewrite <- ?app_assoc; cbn [app];
      eexists; split; [reflexivity |];
      split; [by eexists |]; finish_leaf ].

(** Everything a push to a GitHub source does, whatever git answers. *)
Lemma pushToRemote_trace source type name content options st :
  src_type source = "github" →
  let result := pushToRemote git source type name content options st in
  ∃ ran,
    commands result.2 = commands st ++ ran
    ∧ ran `prefix_of` plan source type name options st
    ∧ match result.1 with
      | Ok PushedTrue =>
          createPR options = false
          ∧ ran = plan source type name options st
      | Ok (PushedBranch branch url) =>
          createPR options = true
          ∧ ran = plan source type name options st
          ∧ branch = GitPusher.branchName type name (clock (world st))
          ∧ url = default "undefined" (src_url source)
                  +:+ "/compare/" +:+ branch
      | Ok PushedFalse =>
          ∃ dir message remote branch,
            plan source type name options st
            = ran ++ [GitCommit dir message; GitPush dir remote branch]
      | Throw msg =>
          ∃ inner,
            msg = (if createPR options
                   then "Failed to create pull request: "
                   else "Failed to push to Git repository: ") +:+ inner
      end.
Proof.
  intros Hg. unfold pushToRemote.
  rewrite decide_False by (intros H; by apply H).
  unfold plan. destruct st as [w cmds].
  destruct (createPR options).
  - unfold GitPusher.createPullRequest, GitPusher.wrapping,
      GitPusher.ensureRepo.
    unfold mbind, P_bind, mret, P_ret, simpleGit, run, onWorld, ensureDir,
      writeFile.
    cbn [fst snd world commands fs clock homedir set_fs net].
    destruct (NodeFs.pathExists _ (fs w));
      cbn [fst snd world commands fs clock homedir set_fs net];
      repeat destruct_step; solve_leaf.
  - unfold GitPusher.pushTemplate, GitPusher.wrapping,
      GitPusher.ensureRepo.
    unfold mbind, P_bind, mret, P_ret, simpleGit, run, onWorld, ensureDir,
      writeFile.
    cbn [fst snd world commands fs clock homedir set_fs net].
    destruct (NodeFs.pathExists _ (fs w));
      cbn [fst snd world commands fs clock homedir set_fs net];
      repeat destruct_step; solve_leaf.
Qed.

End Push.

(** X19: whatever git answers, a push to a GitHub source runs an initial
    part of its plan and nothing else: update or clone, for a pull request
    the new branch, stage, status, commit, push.  When it returns [true]
    or a branch the whole plan was run; when it returns [false] (nothing
    to commit) it stopped before the commit, so nothing was committed or
    pushed.  In particular a pull request pushes no branch but the one it
    created. *)
Theorem push_runs_a_prefix_of_the_plan
    (git : Git) (source : Source) (type name content : string)
    (options : PushOptions) (st : PushState) :
  src_type source = "github" →
  let result := pushToRemote git source type name content options st in
  ∃ ran,
    commands result.2 = commands st ++ ran
    ∧ ran `prefix_of` plan source type name options st
    ∧ match result.1 with
      | Ok PushedFalse =>
          ∃ dir message remote branch,
            plan source type name options st
            = ran ++ [GitCommit dir message; GitPush dir remote branch]
      | Ok _ => ran = plan source type name options st
      | Throw _ => True
      end.
Proof.
  intros Hg result.
  destruct (pushToRemote_trace git source type name content options st Hg)
    as (ran & Hc & Hp & Hr).
  exists ran. split_and!; [done | done |]. subst result.
  destruct (pushToRemote git source type name content options st).1
    as [[| |branch url]|msg];
    [by destruct Hr as [_ Hr] | exact Hr | by destruct Hr as [_ [Hr _]]
    | done].
Qed.

Lemma push_runs_a_prefix_of_the_plan_witness :
  let options := {| createPR := true; commitMessage := None;
                    title := Some "Add the button"; description := None |} in
  (∃ ran,
     commands (pushToRemote obligingGit acmeSource "component" "Button"
                 buttonText options freshPush).2 = [] ++ ran
     ∧ ran = plan acmeSource "component" "Button" options freshPush)
  ∧ ∃ ran dir message remote branch,
      commands (pushToRemote cleanGit acmeSource "component" "Button"
                  buttonText options freshPush).2 = [] ++ ran
      ∧ plan acmeSource "component" "Button" options freshPush
        = ran ++ [GitCommit dir message; GitPush dir remote branch].
Proof.
  intros options. split.
  - destruct (push_runs_a_prefix_of_the_plan obligingGit acmeSource
                "component" "Button" buttonText options freshPush eq_refl)
      as (ran & Hc & _ & Hr).
    exists ran. split; [exact Hc | exact Hr].
  - destruct (push_runs_a_prefix_of_the_plan cleanGit acmeSource
                "component" "Button" buttonText options freshPush eq_refl)
      as (ran & Hc & _ & dir & message & remote & branch & Hr).
    exists ran, dir, message, remote, branch. split; [exact Hc | exact Hr].
Defined.

(** X20: what a push returns.  To a source that is not of type [github]
    it fails at once, naming the type, with no git command run and the
    disk untouched.  To a GitHub source, [true] only comes from a direct
    push; a branch only from a pull request, and then it is the branch
    [add-<type>-<name>-<time>] with the URL [<source url>/compare/<branch>];
    and every failure is reported with the prefix of its mode. *)
Theorem push_result
    (git : Git) (source : Source) (type name content : string)
    (options : PushOptions) (st : PushState) :
  let result := pushToRemote git source type name content options st in
  match result.1 with
  | Ok PushedTrue => src_type source = "github" ∧ createPR options = false
  | Ok (PushedBranch branch url) =>
      src_type source = "github"
      ∧ createPR options = true
      ∧ branch = GitPusher.branchName type name (clock (world st))
      ∧ url = default "undefined" (src_url source)
              +:+ "/compare/" +:+ branch
  | Ok PushedFalse => src_type source = "github"
  | Throw msg =>
      (src_type source ≠ "github"
       ∧ msg = "Pushing to " +:+ src_type source
               +:+ " sources is not supported yet"
       ∧ result.2 = st)
      ∨ (src_type source = "github"
         ∧ ∃ inner,
             msg = (if createPR options
                    then "Failed to create pull request: "
                    else "Failed to push to Git repository: ") +:+ inner)
  end.
Proof.
  intros result. subst result.
  destruct (decide (src_type source = "github")) as [Hg | Hg].
  - destruct (pushToRemote_trace git source type name content options st Hg)
      as (ran & _ & _ & Hr).
    destruct (pushToRemote git source type name content options st).1
      as [[| |branch url]|msg];
      [by destruct Hr as [? _] | done | by destruct Hr as (? & _ & ? & ?)
      | by right].
  - unfold pushToRemote. rewrite decide_True by done. cbn [fst snd].
    by left.
Qed.

(** A pull request from a fresh machine, and a push to the registry. *)
Example push_result_example :
  (pushToRemote obligingGit acmeSource "hook" "useAuth" "text"
     {| createPR := true; commitMessage := None; title := None;
        description := None |} freshPush).1
  = Ok (PushedBranch "add-hook-useAuth-1000"
          "https://github.com/acme/ui.git/compare/add-hook-useAuth-1000")
  ∧ pushToRemote obligingGit registrySource "component" "Button" "text"
      {| createPR := false; commitMessage := None; title := None;
         description := None |} freshPush
    = (Throw "Pushing to npm sources is not supported yet", freshPush).
Proof. vm_compute. done. Qed.

Section BranchNames.

Lemma append_cancel_l (a b c : string) : a +:+ b = a +:+ c → b = c.
Proof. induction a as [|x a IH]; simpl; [done |]. intros [= H]. by apply IH. Qed.

End BranchNames.

(** X21: the branch of a pull request is named after the time: for the
    same type and name, two different clock readings give two different
    branch names. *)
Theorem branch_names_differ_over_time
    (type name : string) (now1 now2 : Z) :
  now1 ≠ now2 →
  GitPusher.branchName type name now1 ≠ GitPusher.branchName type name now2.
Proof.
  intros Hne H. apply Hne. unfold GitPusher.branchName in H.
  repeat apply append_cancel_l in H.
  by apply (inj pretty.pretty) in H.
Qed.

Lemma branch_names_differ_over_time_witness :
  GitPusher.branchName "hook" "useAuth" 1700000000000
  ≠ GitPusher.branchName "hook" "useAuth" 1700000000001.
Proof.
  apply (branch_names_differ_over_time "hook" "useAuth"). discriminate.
Defined.

Section AddMore.

Implicit Types (w : World) (sources : list Source) (options : AddOptions).

Lemma add_names_existing sources cwd packageRoot options type names w :
  add_overwrite options = false →
  (∀ name, name ∈ names →
     NodeFs.pathExists (targetFile cwd (add_dest options) type name) (fs w)
     = true) →
  add_names sources cwd packageRoot options type names w
  = (AlreadyExists <$> (targetFile cwd (add_dest options) type <$> names),
     w).
Proof.
  intros Ho. induction names as [|name rest IH]; intros Hall; [done |].
  cbn [add_names]. unfold add_name at 1.
  rewrite (Hall name) by by left. rewrite Ho. cbn [negb andb].
  rewrite IH by (intros n Hn; apply Hall; by right). done.
Qed.

Lemma existsb_AlreadyExists (l : list path) :
  existsb is_failure (AlreadyExists <$> l) = false.
Proof. induction l as [|p l IH]; [done |]. exact IH. Qed.

Lemma add_name_source sources cwd packageRoot options type name w
    type' name' target source :
  (add_name sources cwd packageRoot options type name w).1
  = Added type' name' target source →
  source ∈ sources.
Proof.
  unfold add_name.
  destruct (NodeFs.pathExists _ (fs w) && negb (add_overwrite options));
    [done |].
  unfold mbind, M_bind, mret, M_ret.
  pose proof (loop_effect type name packageRoot sources [] w)
    as (_ & _ & _ & Hin).
  fold (fetchTemplate sources type name packageRoot) in Hin.
  destruct (fetchTemplate sources type name packageRoot w)
    as [[[content s]|msg] w1]; [|done].
  cbn [fst] in Hin. destruct Hin as [Hin _].
  destruct (ensureDir _ w1) as [[[]|?] w2]; [|done].
  destruct (writeFile _ content w2) as [[[]|?] w3]; [|done].
  by intros [= _ _ _ <-].
Qed.

Lemma add_names_source sources cwd packageRoot options type names :
  ∀ w type' name' target source,
    Added type' name' target source
    ∈ (add_names sources cwd packageRoot options type names w).1 →
    source ∈ sources.
Proof.
  induction names as [|name rest IH]; intros w type' name' target source.
  - intros H. by apply not_elem_of_nil in H.
  - cbn [add_names].
    pose proof (add_name_source sources cwd packageRoot options type name w
                  type' name' target source) as Hone.
    destruct (add_name sources cwd packageRoot options type name w)
      as [event w1].
    specialize (IH w1 type' name' target source).
    destruct (add_names sources cwd packageRoot options type rest w1)
      as [evs w2].
    cbn [fst] in *. intros H. apply elem_of_cons in H as [<- | H]; auto.
Qed.

End AddMore.

(** X22: without [--overwrite] the [add] command replaces nothing: when
    (no [--source] being given) the target file of every name exists
    already, it fetches nothing, leaves the world as it is, reports each
    file as existing and exits with code 0. *)
Theorem add_without_overwrite_keeps_existing_files
    (env : ConfigEnv) (cwd packageRoot : path) (type : string)
    (names : list string) (options : AddOptions) (w : World) :
  add_overwrite options = false →
  add_source options = None →
  (∀ name, name ∈ names →
     NodeFs.pathExists (targetFile cwd (add_dest options) type name) (fs w)
     = true) →
  add env cwd packageRoot type names options w
  = ({| exitCode := 0;
        events := Some (AlreadyExists
                          <$> (targetFile cwd (add_dest options) type
                                 <$> names)) |}, w).
Proof.
  intros Ho Hs Hall. unfold add, sourceOption. rewrite Hs.
  rewrite add_names_existing by done.
  by rewrite existsb_AlreadyExists.
Qed.

Lemma add_without_overwrite_keeps_existing_files_witness :
  let options := {| add_dest := "src"; add_overwrite := false;
                    add_source := None |} in
  let w := (add freshEnv projectDir packageDir "component"
              ["Button"; "Modal"] options bundledWorld).2 in
  add freshEnv projectDir packageDir "component" ["Modal"; "Button"] options w
  = ({| exitCode := 0;
        events := Some (AlreadyExists
                          <$> (targetFile projectDir "src" "component"
                                 <$> ["Modal"; "Button"])) |}, w).
Proof.
  intros options w.
  apply (add_without_overwrite_keeps_existing_files freshEnv projectDir
           packageDir "component" ["Modal"; "Button"] options w).
  - reflexivity.
  - reflexivity.
  - intros name Hn.
    repeat (apply elem_of_cons in Hn as [-> | Hn]; [vm_compute; reflexivity |]).
    by apply not_elem_of_nil in Hn.
Defined.

(** X23: every template the [add] command reports as added comes from a
    configured source, and with a non-empty [--source] from a source of
    that name:
    no other source is ever used. *)
Theorem add_uses_the_selected_sources
    (env : ConfigEnv) (cwd packageRoot : path) (type : string)
    (names : list string) (options : AddOptions) (w : World)
    (evs : list AddEvent) (type' name' : string) (target : path)
    (source : Source) :
  events (add env cwd packageRoot type names options w).1 = Some evs →
  Added type' name' target source ∈ evs →
  source ∈ getSources env
  ∧ ∀ n, add_source options = Some n → n ≠ "" → src_name source = n.
Proof.
  unfold add, getSources.
  set (selected := match sourceOption options with
                   | Some n => List.filter (named n) _
                   | None => _
                   end).
  intros Hev Hin.
  assert (source ∈ selected) as Hsel.
  { destruct (sourceOption options) as [n|] eqn:Hn.
    - destruct selected as [|s l] eqn:Hsel; [done |].
      pose proof (add_names_source (s :: l) cwd packageRoot options type
                    names w type' name' target source) as Hsrc.
      destruct (add_names (s :: l) cwd packageRoot options type names w)
        as [evs' w']. cbn [fst events] in *. injection Hev as ->. auto.
    - pose proof (add_names_source selected cwd packageRoot options type
                    names w type' name' target source) as Hsrc.
      destruct (add_names selected cwd packageRoot options type names w)
        as [evs' w'].
      assert (evs' = evs) as -> by (by destruct selected; injection Hev).
      auto. }
  subst selected. unfold sourceOption in Hsel.
  destruct (add_source options) as [[|a n]|].
  - split; [done |]. by intros n' [= <-].
  - cbn [JsString.truthy] in Hsel.
    apply list_elem_of_In, filter_In in Hsel as [Hsel Hn].
    split; [by apply list_elem_of_In |]. intros n' [= <-] _.
    unfold named in Hn. by apply bool_decide_eq_true in Hn.
  - split; [done | done].
Qed.

Lemma add_uses_the_selected_sources_witness :
  let options := {| add_dest := "src"; add_overwrite := false;
                    add_source := Some "local" |} in
  let env := homeEnv [acmeSource; localSource]
               {| enabled := true; ttl := 3600000 |} in
  localSource ∈ getSources env
  ∧ ∀ n, add_source options = Some n → n ≠ "" → src_name localSource = n.
Proof.
  intros options env.
  apply (add_uses_the_selected_sources env projectDir packageDir "component"
           ["Button"] options bundledWorld
           [Added "component" "Button"
              (targetFile projectDir "src" "component" "Button") localSource]
           "component" "Button"
           (targetFile projectDir "src" "component" "Button") localSource).
  - vm_compute. reflexivity.
  - apply list_elem_of_here.
Defined.

(** X24: for a repository URL [https://github.com/<repo>.git], or the same
    without [.git], in which [<repo>] itself contains no [.git],
    [buildRawUrl] is
    [https://raw.githubusercontent.com/<repo>/<branch>/<path>/<types>/<name><ext>],
    with [main] for an absent branch and [templates] for an absent path. *)
Theorem rawUrl_of_plain_repository
    (source : Source) (type name repo : string) :
  JsString.includes ".git" repo = false →
  src_url source = Some ("https://github.com/" +:+ repo +:+ ".git")
  ∨ src_url source = Some ("https://github.com/" +:+ repo) →
  GitHubFetcher.buildRawUrl source type name
  = Ok ("https://raw.githubusercontent.com/" +:+ repo +:+ "/"
        +:+ default "main" (src_branch source) +:+ "/"
        +:+ default "templates" (src_path source) +:+ "/"
        +:+ pluralizeType type +:+ "/" +:+ name +:+ getFileExtension type).
Proof. apply buildRawUrl_plain. Qed.

Lemma rawUrl_of_plain_repository_witness :
  GitHubFetcher.buildRawUrl acmeSource "hook" "useAuth"
  = Ok "https://raw.githubusercontent.com/acme/ui/main/templates/hooks/useAuth.ts".
Proof.
  rewrite (rawUrl_of_plain_repository acmeSource "hook" "useAuth" "acme/ui").
  - reflexivity.
  - reflexivity.
  - left. reflexivity.
Defined.
